(** * InfluxDB client: statement builder, identifier quoting, response mapping

    A shallow embedding of the Go sources

    - [quote.go]           (Quote, isBareIdentifier, escapeString),
    - the statement file   (DataSource, offsetlimit, columns, s, Select, Do),
    - [influxdb.go]        (Client, Close, GetVersion, GetDatabase, query,
                            Query, queryScalar, ShowDatabases, SetDatabase)

    together with the properties the specification states about them.

    Go strings are byte sequences: they are modelled by [string], whose
    characters are the 256 values of [ascii].  Go's [uint] values are never
    used in arithmetic by this code, only compared with zero and printed, so
    they are modelled by [N]. *)

From Stdlib Require Import String Ascii List Bool Arith NArith Lia.
From Stdlib Require Import DecimalString DecimalPos.
From stdpp Require Import base option list gmap strings.

Local Open Scope string_scope.
Local Open Scope list_scope.

(* ================================================================== *)
(** * Characters that the literals of the program use *)

Definition DQUOTE : ascii := "034"%char.
Definition BACKSLASH : ascii := "092"%char.
Definition SPACE : ascii := "032"%char.

(** One-character strings. *)
Definition str1 (ch : ascii) : string := String ch EmptyString.

(* ================================================================== *)
(** * The functions of Go's [strings] and [fmt] packages the code calls *)

Module GoStrings.

(** [strings.HasPrefix(s, prefix)]. *)
Definition HasPrefix (s pre : string) : bool := String.prefix pre s.

(** [strings.HasSuffix(s, suffix)]:
    [len(s) >= len(suffix) && s[len(s)-len(suffix):] == suffix]. *)
Definition HasSuffix (s suffix : string) : bool :=
  (String.length suffix <=? String.length s)%nat
  && String.eqb
       (substring (String.length s - String.length suffix)
                  (String.length suffix) s)
       suffix.

(** [strings.TrimSuffix(s, suffix)]: [s] without the trailing [suffix], or
    [s] itself when it does not end with [suffix]. *)
Definition TrimSuffix (s suffix : string) : string :=
  if HasSuffix s suffix
  then substring 0 (String.length s - String.length suffix) s
  else s.

(** [strings.Replace(s, old, new, -1)] for a non-empty [old]: every
    non-overlapping occurrence of [old], found from the left, is replaced by
    [new].  [skip] counts the bytes of a matched occurrence that are still
    to be dropped.  (With an empty [old] Go inserts [new] at every rune
    boundary; the program never does that and the case is left as the
    identity here.) *)
Fixpoint replace_from (old new : string) (skip : nat) (s : string) : string :=
  match s with
  | EmptyString => EmptyString
  | String ch rest =>
      match skip with
      | S k => replace_from old new k rest
      | O =>
          if HasPrefix s old
          then new +:+ replace_from old new (String.length old - 1) rest
          else String ch (replace_from old new O rest)
      end
  end.

Definition Replace (s old new : string) : string :=
  match old with
  | EmptyString => s
  | String _ _ => replace_from old new 0 s
  end.

(** [strings.Join(parts, sep)]. *)
Fixpoint Join (parts : list string) (sep : string) : string :=
  match parts with
  | [] => EmptyString
  | [p] => p
  | p :: ps => p +:+ sep +:+ Join ps sep
  end.

(** White space as [strings.TrimSpace] sees it in one-byte characters: tab,
    line feed, vertical tab, form feed, carriage return and space.  (Go also
    trims the multi-byte white space runes; the only caller passes text made
    of the words LIMIT and OFFSET, spaces and decimal digits.) *)
Definition isSpace (ch : ascii) : bool :=
  let n := nat_of_ascii ch in
  ((9 <=? n) && (n <=? 13) || (n =? 32))%nat.

Fixpoint TrimLeft (s : string) : string :=
  match s with
  | EmptyString => EmptyString
  | String ch rest => if isSpace ch then TrimLeft rest else s
  end.

Fixpoint TrimRight (s : string) : string :=
  match s with
  | EmptyString => EmptyString
  | String ch rest =>
      match TrimRight rest with
      | EmptyString => if isSpace ch then EmptyString else str1 ch
      | kept => String ch kept
      end
  end.

(** [strings.TrimSpace(s)]. *)
Definition TrimSpace (s : string) : string := TrimRight (TrimLeft s).

(** [fmt.Sprintf("%v", n)] for an unsigned integer: its decimal digits. *)
Definition Sprint_uint (n : N) : string :=
  NilEmpty.string_of_uint (N.to_uint n).

(** The last byte of a string. *)
Fixpoint last_byte (s : string) : option ascii :=
  match s with
  | EmptyString => None
  | String ch EmptyString => Some ch
  | String _ rest => last_byte rest
  end.

(** A text has trailing white space when its last byte is white space. *)
Definition ends_with_space (s : string) : bool :=
  match last_byte s with
  | Some ch => isSpace ch
  | None => false
  end.

(** [strings.Contains] for a single byte. *)
Fixpoint contains_byte (ch : ascii) (s : string) : bool :=
  match s with
  | EmptyString => false
  | String c rest => Ascii.eqb c ch || contains_byte ch rest
  end.

End GoStrings.

(* ================================================================== *)
(** * quote.go *)

Module Quoter.
Import GoStrings.

Definition is_upper (ch : ascii) : bool :=
  let n := nat_of_ascii ch in ((65 <=? n) && (n <=? 90))%nat.
Definition is_lower (ch : ascii) : bool :=
  let n := nat_of_ascii ch in ((97 <=? n) && (n <=? 122))%nat.
Definition is_digit (ch : ascii) : bool :=
  let n := nat_of_ascii ch in ((48 <=? n) && (n <=? 57))%nat.
Definition is_underscore (ch : ascii) : bool :=
  (nat_of_ascii ch =? 95)%nat.

(** The class [[A-Za-z_]] and the class [[A-Za-z0-9_]]. *)
Definition bare_first (ch : ascii) : bool :=
  is_upper ch || is_lower ch || is_underscore ch.
Definition bare_next (ch : ascii) : bool :=
  is_upper ch || is_lower ch || is_digit ch || is_underscore ch.

Fixpoint all_bytes (p : ascii -> bool) (s : string) : bool :=
  match s with
  | EmptyString => true
  | String ch rest => p ch && all_bytes p rest
  end.

(** [regexpBareIdentifier.MatchString(value)] for the anchored expression
    [^[A-Za-z_][A-Za-z0-9_]*$]. *)
Definition isBareIdentifier (value : string) : bool :=
  match value with
  | EmptyString => false
  | String ch rest => bare_first ch && all_bytes bare_next rest
  end.

(** [escapeString]: first every backslash is doubled, then every double
    quote gets a backslash in front. *)
Definition escapeString (value : string) : string :=
  let value := Replace value (str1 BACKSLASH) (String BACKSLASH (str1 BACKSLASH)) in
  let value := Replace value (str1 DQUOTE) (String BACKSLASH (str1 DQUOTE)) in
  value.

(** [Quote]. *)
Definition Quote (value : string) : string :=
  if String.eqb value EmptyString then value
  else if isBareIdentifier value then value
  else str1 DQUOTE +:+ escapeString value +:+ str1 DQUOTE.

End Quoter.

(* ================================================================== *)
(** * The data of the client: errors, responses, tables, the client itself *)

Module Model.

(** The error values of the package ([errors.New] values, compared by
    identity in Go) and the errors that come from outside it: the transport's
    own errors and the error texts a response carries. *)
Inductive error : Type :=
  | ErrNotConnected
  | ErrUnexpectedResponse
  | ErrEmptyResponse
  | ErrForeign (text : string).

(** What a Go call hands back: a value with a nil error, a non-nil error, or
    a run-time panic. *)
Inductive outcome (A : Type) : Type :=
  | Return (a : A)
  | Fail (e : error)
  | Panic.
Arguments Return {A} a.
Arguments Fail {A} e.
Arguments Panic {A}.

Definition bind {A B : Type} (m : outcome A) (k : A -> outcome B) : outcome B :=
  match m with
  | Return a => k a
  | Fail e => Fail e
  | Panic => Panic
  end.

Notation "x <~ m ;; k" := (bind m (fun x => k))
  (at level 100, m at next level, right associativity).

(** A cell of a decoded row ([interface{}] in Go): the JSON decoder of the
    transport yields strings, numbers (kept as their text), booleans and
    nil. *)
Inductive value : Type :=
  | VString (text : string)
  | VNumber (digits : string)
  | VBool (b : bool)
  | VNil.

(** [models.Row], [client.Result] and [client.Response] of the transport
    library, with the fields the client reads. *)
Record Row : Type := {
  Row_Name : string;
  Row_Tags : gmap string string;
  Row_Columns : list string;
  Row_Values : list (list value);
  Row_Partial : bool
}.

Record Result : Type := {
  Series : list Row;
  Result_Err : string
}.

Record Response : Type := {
  Results : list Result;
  Response_Err : string
}.

(** [Response.Error()] of the transport library: the first error text of the
    response or of one of its results, if there is one. *)
Definition Response_Error (r : Response) : option error :=
  if negb (String.eqb (Response_Err r) EmptyString)
  then Some (ErrForeign (Response_Err r))
  else
    match List.filter (fun res => negb (String.eqb (Result_Err res) EmptyString))
                 (Results r) with
    | res :: _ => Some (ErrForeign (Result_Err res))
    | [] => None
    end.

(** Modelled from the spec: the struct [Table] is declared in none of the
    files at hand.  The data model of the specification gives it the fields
    Name, Tags, Columns, Values and Partial, which are the ones [Query]
    assigns. *)
Record Table : Type := {
  Name : string;
  Tags : gmap string string;
  Columns : list string;
  Values : list (list value);
  Partial : bool
}.

(** The transport handle ([client.Client] of the transport library): the two
    methods the client calls after it has been opened, [Query] on a command
    and a database and [Close].  An error of the transport is given by its
    text; it is never one of the error values of this package. *)
Record Transport : Type := {
  Transport_Query : string -> string -> string + Response;
  Transport_Close : option string
}.

(** What the logger has been asked to write. *)
Inductive level : Type := LevelDebug2 | LevelDebug | LevelError.
Definition Logger : Type := list (level * string).

(** [Client]: [client] is [None] when the Go field is nil. *)
Record Client : Type := {
  log : Logger;
  database : string;
  addr : string;
  client : option Transport;
  version : string
}.

End Model.

(* ================================================================== *)
(** * The statement builder *)

Module Builder.
Import GoStrings Quoter.

(** Modelled from the spec: [QuoteIdentifier], which [DataSource.String]
    calls, is declared in none of the files at hand.  The specification has
    one identifier quoter and renders the segments of a data source with it,
    so [QuoteIdentifier] is [Quote]. *)
Definition QuoteIdentifier (value : string) : string := Quote value.

Record offsetlimit : Type := { Limit : N; Offset : N }.

Record columns : Type := { columns_value : string }.

Record DataSource : Type := {
  Measurement : string;
  Database : string;
  RetentionPolicy : string
}.

(** The struct [s]; a nil pointer field is [None]. *)
Record s : Type := {
  d : list DataSource;
  c : option columns;
  o : option offsetlimit
}.

Definition nonempty (x : string) : bool := negb (String.eqb x EmptyString).

(** The methods [Limit], [Offset] and [Columns] of [s] update the statement in
    place and return it. *)
Definition s_Limit (limit : N) (this : s) : s :=
  match o this with
  | None => {| d := d this; c := c this;
               o := Some {| Limit := limit; Offset := 0 |} |}
  | Some ol => {| d := d this; c := c this;
                  o := Some {| Limit := limit; Offset := Offset ol |} |}
  end.

Definition s_Offset (offset : N) (this : s) : s :=
  match o this with
  | None => {| d := d this; c := c this;
               o := Some {| Limit := 0; Offset := offset |} |}
  | Some ol => {| d := d this; c := c this;
                  o := Some {| Limit := Limit ol; Offset := offset |} |}
  end.

Definition s_Columns (value : string) : s -> s := fun this =>
  if String.eqb value EmptyString
  then {| d := d this; c := None; o := o this |}
  else {| d := d this; c := Some {| columns_value := value |}; o := o this |}.

(** The method [String] of [offsetlimit]. *)
Definition offsetlimit_String (ol : offsetlimit) : string :=
  if (Limit ol =? 0)%N && (Offset ol =? 0)%N then EmptyString
  else
    let s := EmptyString in
    let s := if (0 <? Limit ol)%N
             then s +:+ (" LIMIT " +:+ Sprint_uint (Limit ol)) else s in
    let s := if (0 <? Offset ol)%N
             then s +:+ (" OFFSET " +:+ Sprint_uint (Offset ol)) else s in
    TrimSpace s.

(** The method [String] of [columns]. *)
Definition columns_String (cols : columns) : string :=
  if String.eqb (columns_value cols) EmptyString then "*"
  else columns_value cols.

(** The method [String] of [DataSource]. *)
Definition DataSource_String (f : DataSource) : string :=
  let parts : list string := [] in
  let parts := if nonempty (Database f)
               then parts ++ [QuoteIdentifier (Database f)] else parts in
  let parts := if nonempty (RetentionPolicy f)
               then parts ++ [QuoteIdentifier (RetentionPolicy f)]
               else if nonempty (Database f)
                    then parts ++ [EmptyString] else parts in
  let parts := if nonempty (Measurement f)
               then parts ++ [QuoteIdentifier (Measurement f)] else parts in
  Join parts ".".

(** The method [Statement] of [s]. *)
Definition s_Statement (this : s) : string :=
  let q := "SELECT " in
  let q := match c this with
           | Some cols => q +:+ columns_String cols
           | None => q +:+ "*"
           end in
  let q := if (0 <? length (d this))%nat
           then
             let q := q +:+ " FROM " in
             let q := fold_left
                        (fun q f => (q +:+ DataSource_String f) +:+ ",")
                        (d this) q in
             TrimSuffix q ","
           else q in
  let q := match o this with
           | Some ol => (q +:+ " ") +:+ offsetlimit_String ol
           | None => q
           end in
  q.

End Builder.

(* ================================================================== *)
(** * influxdb.go and the constructors of the statement file *)

Module Facade.
Import GoStrings Quoter Model Builder.

Definition set_log (this : Client) (l : Logger) : Client :=
  {| log := l; database := database this; addr := addr this;
     client := client this; version := version this |}.

Definition set_client (this : Client) (h : option Transport) : Client :=
  {| log := log this; database := database this; addr := addr this;
     client := h; version := version this |}.

Definition set_database (this : Client) (name : string) : Client :=
  {| log := log this; database := name; addr := addr this;
     client := client this; version := version this |}.

(** A call of the logger at the given level. *)
Definition logged (lv : level) (text : string) (this : Client) : Client :=
  set_log this (log this ++ [(lv, text)]).

(** [Close]: the handle is dropped whether or not the transport reports an
    error on closing. *)
Definition Close (this : Client) : Client * option error :=
  let this := logged LevelDebug2 "<influxdb.Client>Close" this in
  match client this with
  | Some h =>
      match Transport_Close h with
      | Some err => (set_client this None, Some (ErrForeign err))
      | None => (set_client this None, None)
      end
  | None => (this, None)
  end.

(** [GetVersion]. *)
Definition GetVersion (this : Client) : string :=
  match client this with
  | None => EmptyString
  | Some _ => version this
  end.

(** [GetDatabase]. *)
Definition GetDatabase (this : Client) : string :=
  match client this with
  | None => EmptyString
  | Some _ => database this
  end.

(** [query]: the command is sent against the current database. *)
Definition query (this : Client) (q : string) : outcome Response :=
  match client this with
  | None => Fail ErrNotConnected
  | Some h =>
      match Transport_Query h q (database this) with
      | inl err => Fail (ErrForeign err)
      | inr response =>
          match Response_Error response with
          | Some err => Fail err
          | None => Return response
          end
      end
  end.

(** [Query]. *)
Definition Query (this : Client) (q : string) : outcome Table :=
  response <~ query this q ;;
  if negb (length (Results response) =? 1)%nat then Fail ErrEmptyResponse
  else
    match Results response !! 0%nat with
    | None => Panic
    | Some result0 =>
        if (length (Series result0) =? 0)%nat then Fail ErrEmptyResponse
        else
          match Series result0 !! 0%nat with
          | None => Panic
          | Some series =>
              Return {| Name := Row_Name series;
                        Tags := Row_Tags series;
                        Columns := Row_Columns series;
                        Values := Row_Values series;
                        Partial := Row_Partial series |}
          end
    end.

(** The loop of [queryScalar] over the rows, [values] being the slice built
    so far. *)
Fixpoint scalar_rows (rows : list (list value)) (values : list string)
  : outcome (list string) :=
  match rows with
  | [] => Return values
  | column :: rest =>
      if negb (length column =? 1)%nat then Fail ErrUnexpectedResponse
      else
        match column !! 0%nat with
        | None => Panic
        | Some (VString value) => scalar_rows rest (values ++ [value])
        | Some _ => Fail ErrUnexpectedResponse
        end
  end.

(** The condition [len(table.Columns) != 1 && table.Columns[0] != column]:
    the right operand is evaluated only when the left one holds, and then
    indexes the slice. *)
Definition columns_mismatch (table : Table) (column : string) : outcome bool :=
  if negb (length (Columns table) =? 1)%nat
  then
    match Columns table !! 0%nat with
    | None => Panic
    | Some first => Return (negb (String.eqb first column))
    end
  else Return false.

(** [queryScalar]. *)
Definition queryScalar (this : Client) (q dataset column : string)
  : outcome (list string) :=
  table <~ Query this q ;;
  if negb (String.eqb (Name table) dataset) then Fail ErrUnexpectedResponse
  else
    mismatch <~ columns_mismatch table column ;;
    if (mismatch : bool) then Fail ErrUnexpectedResponse
    else scalar_rows (Values table) [].

(** [ShowDatabases] and [GetMeasurements]. *)
Definition ShowDatabases (this : Client) : outcome (list string) :=
  match client this with
  | None => Fail ErrNotConnected
  | Some _ => queryScalar this "SHOW DATABASES" "databases" "name"
  end.

Definition GetMeasurements (this : Client) : outcome (list string) :=
  match client this with
  | None => Fail ErrNotConnected
  | Some _ => queryScalar this "SHOW MEASUREMENTS" "measurements" "name"
  end.

(** [SetDatabase]: the first listed database equal to [name] becomes the
    current one. *)
Definition SetDatabase (this : Client) (name : string)
  : Client * outcome unit :=
  match client this with
  | None => (this, Fail ErrNotConnected)
  | Some _ =>
      match ShowDatabases this with
      | Fail err => (this, Fail err)
      | Panic => (this, Panic)
      | Return databases =>
          match List.filter (fun v => String.eqb v name) databases with
          | v :: _ => (set_database this v, Return tt)
          | [] => (this, Fail ErrEmptyResponse)
          end
      end
  end.

(** [Select]: the result is a nil [Statement] ([None]) when no data source
    is given, after the logger has been told. *)
Definition Select (this : Client) (from : list DataSource)
  : Client * option s :=
  if (length from =? 0)%nat
  then (logged LevelError
               "Call to Select requires at least one data source" this,
        None)
  else (this, Some {| d := from; c := None; o := None |}).

(** [Do]: calling [Statement] on a nil interface value panics. *)
Definition Do (this : Client) (statement : option s) : outcome Table :=
  match client this with
  | None => Fail ErrNotConnected
  | Some _ =>
      match statement with
      | None => Panic
      | Some st => Query this (s_Statement st)
      end
  end.

End Facade.

(* ================================================================== *)
(** * Definitions that follow the words of the specification *)

Module SpecWords.
Import GoStrings Quoter Model Builder.

(** The un-escaping the specification describes for a quoted identifier:
    strip the outer double quotes, then replace backslash-quote by a quote,
    then replace a doubled backslash by one backslash. *)
Definition strip_outer_quotes (quoted : string) : string :=
  match quoted with
  | EmptyString => quoted
  | String ch rest =>
      if Ascii.eqb ch DQUOTE && HasSuffix rest (str1 DQUOTE)
      then TrimSuffix rest (str1 DQUOTE)
      else quoted
  end.

Definition unescape (quoted : string) : string :=
  let inner := strip_outer_quotes quoted in
  let inner := Replace inner (String BACKSLASH (str1 DQUOTE)) (str1 DQUOTE) in
  Replace inner (String BACKSLASH (str1 BACKSLASH)) (str1 BACKSLASH).

(** The error the specification names for a statement without data sources.
    The files at hand declare no such value. *)
Inductive spec_error : Type := ErrInvalidStatement.

(** What a caller can tell apart after asking for a statement: a statement,
    a nil statement, or an error value. *)
Inductive construction : Type :=
  | Constructed (st : s)
  | NilStatement
  | ConstructionError (e : spec_error).

(** The constructor as the specification words it. *)
Definition Select_spec (from : list DataSource) : construction :=
  match from with
  | [] => ConstructionError ErrInvalidStatement
  | _ :: _ => Constructed {| d := from; c := None; o := None |}
  end.

(** What the Go constructor returned, seen as a [construction]. *)
Definition returned (st : option s) : construction :=
  match st with
  | Some st => Constructed st
  | None => NilStatement
  end.

End SpecWords.

(* ================================================================== *)
(** * Values the properties are stated on *)

Module Samples.
Import GoStrings Quoter Model Builder Facade SpecWords.

(** The two-byte texts of [escapeString]: a doubled backslash, and a
    backslash before a double quote. *)
Definition BS2 : string := String BACKSLASH (str1 BACKSLASH).
Definition BSQ : string := String BACKSLASH (str1 DQUOTE).

(** The text the specification gives for a data source without database:
    two double quotes, then the other two segments. *)
Definition placeholder_text : string :=
  String DQUOTE (String DQUOTE ".retention_policy.measurement").

(** The data source of the measurement [cpu]. *)
Definition cpu : DataSource :=
  {| Measurement := "cpu"; Database := EmptyString;
     RetentionPolicy := EmptyString |}.

(** The statement [Select] builds over the one data source [cpu]. *)
Definition select_cpu : s := {| d := [cpu]; c := None; o := None |}.

(** The text the specification gives for the literal case, with double
    quotes around the measurement. *)
Definition literal_text : string :=
  "SELECT * FROM " +:+ String DQUOTE ("cpu" +:+ String DQUOTE " LIMIT 10 OFFSET 5").

(** A client that has been closed. *)
Definition closed_client : Client :=
  {| log := []; database := EmptyString; addr := "http://localhost:8086/";
     client := None; version := EmptyString |}.

(** The table [Query] makes of a series. *)
Definition table_of (series : Row) : Table :=
  {| Name := Row_Name series; Tags := Row_Tags series;
     Columns := Row_Columns series; Values := Row_Values series;
     Partial := Row_Partial series |}.

(** A series without tags, and the response that holds the given series in
    its one result. *)
Definition series_of (name : string) (cols : list string)
    (rows : list (list value)) : Row :=
  {| Row_Name := name; Row_Tags := ∅; Row_Columns := cols;
     Row_Values := rows; Row_Partial := false |}.

Definition response_of (series : list Row) : Response :=
  {| Results := [{| Series := series; Result_Err := EmptyString |}];
     Response_Err := EmptyString |}.

(** A client whose transport answers every command with [response]. *)
Definition client_answering (response : Response) : Client :=
  {| log := []; database := "mydb"; addr := "http://localhost:8086/";
     client := Some {| Transport_Query := fun _ _ => inr response;
                       Transport_Close := None |};
     version := "1.8.10" |}.

(** The answer to SHOW DATABASES on a server with two databases. *)
Definition databases_response : Response :=
  response_of [series_of "databases" ["name"] [[VString "db1"]; [VString "db2"]]].

(** The responses of the failing inputs of C1: one series named
    [databases] with the two columns [name] and [extra], without rows and
    with a row of one value. *)
Definition two_columns_response (rows : list (list value)) : Response :=
  response_of [series_of "databases" ["name"; "extra"] rows].

End Samples.

(* ================================================================== *)
(** * Opening a client *)

Module Connect.
Import GoStrings Quoter Model Builder Facade.

(** [Config]. [Timeout] is a [time.Duration], a number of nanoseconds. *)
Record Config : Type := {
  Host : string;
  Port : N;
  SSL : bool;
  Config_Database : string;
  Username : string;
  Password : string;
  Timeout : Z
}.

(** [DefaultPortHTTP]. *)
Definition DefaultPortHTTP : N := 8086.

(** [Config.addr]: the receiver is a copy, so the default port is set on the
    copy only.  [%v] prints a string as it is and an unsigned integer in
    decimal. *)
Definition Config_addr (config : Config) : string :=
  let method := "http" in
  let method := if SSL config then "https" else method in
  let port := if (Port config =? 0)%N then DefaultPortHTTP else Port config in
  ((((method +:+ "://") +:+ Host config) +:+ ":") +:+ Sprint_uint port) +:+ "/".

(** [client.HTTPConfig] of the transport library, with the fields [Open]
    sets. *)
Record HTTPConfig : Type := {
  Addr : string;
  HTTP_Username : string;
  HTTP_Password : string;
  HTTP_Timeout : Z
}.

(** What [client.NewHTTPClient] hands back: the handle the client keeps,
    and its method [Ping], which on success reports the round trip time and
    the version of the server. *)
Record Connection : Type := {
  Connection_handle : Transport;
  Connection_Ping : Z -> string + (Z * string)
}.

Section Opening.

(** The two functions of other libraries [Open] relies on:
    [client.NewHTTPClient], and the printing of a [time.Duration]. *)
Variable NewHTTPClient : HTTPConfig -> string + Connection.
Variable Duration_String : Z -> string.

(** [Config.Open].  The logger is the one passed in; the result is the
    logger after the call and the client or the error.  [log.Error] writes
    the formatted text and returns it as an error.  On a failed ping the
    handle is closed and the result of closing is dropped. *)
Definition Open (config : Config) (log0 : Logger) : Logger * outcome Client :=
  let log1 :=
    log0 ++ [(LevelDebug2,
              ((("<influxdb.Client>Open{ addr=" +:+ Config_addr config)
                +:+ " database=") +:+ Config_Database config) +:+ " }")] in
  let http := {| Addr := Config_addr config;
                 HTTP_Username := Username config;
                 HTTP_Password := Password config;
                 HTTP_Timeout := Timeout config |} in
  match NewHTTPClient http with
  | inl err => (log1 ++ [(LevelError, err)], Fail (ErrForeign err))
  | inr conn =>
      match Connection_Ping conn (HTTP_Timeout http) with
      | inl err => (log1 ++ [(LevelError, err)], Fail (ErrForeign err))
      | inr (t, server_version) =>
          let this := {| log := log1; database := EmptyString;
                         addr := Config_addr config;
                         client := Some (Connection_handle conn);
                         version := server_version |} in
          let this :=
            logged LevelDebug
                   ((("InfluxDB Version=" +:+ server_version) +:+ " Ping=")
                    +:+ Duration_String t) this in
          if nonempty (Config_Database config)
          then
            match SetDatabase this (Config_Database config) with
            | (this, Return _) => (Model.log this, Return this)
            | (this, Fail _) =>
                let text := "Unknown database: " +:+ Config_Database config in
                (Model.log this ++ [(LevelError, text)], Fail (ErrForeign text))
            | (this, Panic) => (Model.log this, Panic)
            end
          else (Model.log this, Return this)
      end
  end.

End Opening.

End Connect.

(* ================================================================== *)
(** * The command-line tool *)

Module Cli.
Import GoStrings Model.

(** [GetOneArg], on the arguments [app.AppFlags.Args()] returns: the name of
    the command and what follows it. *)
Definition GetOneArg (args : list string) (param1 : string) : outcome string :=
  if (length args <? 2)%nat
  then Fail (ErrForeign
               ((("Missing " +:+ str1 DQUOTE) +:+ param1)
                +:+ (str1 DQUOTE +:+ " command-line argument")))
  else if (2 <? length args)%nat
  then Fail (ErrForeign "Too many command-line arguments")
  else
    match args !! 1%nat with
    | Some arg => Return arg
    | None => Panic
    end.

End Cli.

(* ================================================================== *)
(** * Predicates the further properties are stated with *)

Module Shapes.
Import GoStrings Quoter Model Builder Samples Connect.

(** What [escapeString] puts for one byte. *)
Definition escaped_byte (ch : ascii) : string :=
  if Ascii.eqb ch BACKSLASH then BS2
  else if Ascii.eqb ch DQUOTE then BSQ
  else str1 ch.

(** The inside of a quoted identifier reads back without surprise: every
    backslash is followed by a byte that it escapes, and no double quote
    stands on its own. *)
Fixpoint well_escaped (inner : string) : bool :=
  match inner with
  | EmptyString => true
  | String ch rest =>
      if Ascii.eqb ch BACKSLASH
      then match rest with
           | EmptyString => false
           | String _ rest' => well_escaped rest'
           end
      else if Ascii.eqb ch DQUOTE then false
      else well_escaped rest
  end.

(** How often a byte occurs in a text. *)
Fixpoint count_byte (ch : ascii) (t : string) : nat :=
  match t with
  | EmptyString => 0
  | String c rest => (if Ascii.eqb c ch then 1 else 0) + count_byte ch rest
  end.

(** The rows of a table that holds one string per row. *)
Definition single_strings (values : list string) : list (list value) :=
  map (fun v => [VString v]) values.

(** The column list passes the check of [queryScalar]. *)
Definition columns_accepted (cols : list string) (column : string) : Prop :=
  exists first more, cols = first :: more /\ (more = [] \/ first = column).

(** The column spec and the limit clause of a rendered statement. *)
Definition columns_text (st : s) : string :=
  match c st with
  | Some cols => columns_String cols
  | None => "*"
  end.

Definition clause_text (st : s) : string :=
  match o st with
  | Some ol => " " +:+ offsetlimit_String ol
  | None => EmptyString
  end.

(** A configuration with another port, and the settings [Open] passes to
    the transport library. *)
Definition with_port (config : Config) (port : N) : Config :=
  {| Host := Host config; Port := port; SSL := SSL config;
     Config_Database := Config_Database config; Username := Username config;
     Password := Password config; Timeout := Timeout config |}.

Definition http_of (config : Config) : HTTPConfig :=
  {| Addr := Config_addr config; HTTP_Username := Username config;
     HTTP_Password := Password config; HTTP_Timeout := Timeout config |}.

End Shapes.

(* ================================================================== *)
(** * Further values the properties are stated on *)

Module MoreSamples.
Import GoStrings Quoter Model Builder Facade Samples Connect.

(** The data source of the measurement [mem] in the database [db]. *)
Definition db_mem : DataSource :=
  {| Measurement := "mem"; Database := "db"; RetentionPolicy := EmptyString |}.

(** The statement [Select] builds over [cpu] and [db_mem]. *)
Definition select_two : s := {| d := [cpu; db_mem]; c := None; o := None |}.

(** A server that lists its databases, one that refuses the connection and
    one that does not answer the ping. *)
Definition listing_handle : Transport :=
  {| Transport_Query := fun _ _ => inr databases_response;
     Transport_Close := None |}.

Definition dial_ok (http : HTTPConfig) : string + Connection :=
  inr {| Connection_handle := listing_handle;
         Connection_Ping := fun _ => inr (1500%Z, "1.8.10") |}.


Definition dial_silent (http : HTTPConfig) : string + Connection :=
  inr {| Connection_handle := listing_handle;
         Connection_Ping := fun _ => inl "timeout" |}.

(** A printer of durations that only names the unit. *)
Definition print_ns (t : Z) : string := "ns".

(** A configuration on the default port, with the database to select. *)
Definition config_for (db : string) : Config :=
  {| Host := "localhost"; Port := 0; SSL := false; Config_Database := db;
     Username := "admin"; Password := "secret"; Timeout := 5000000000 |}.

(** The answer to SHOW DATABASES with a number where the name should be. *)
Definition numeric_response : Response :=
  response_of [series_of "databases" ["name"] [[VNumber "1"]]].

End MoreSamples.

(* ================================================================== *)
(** * Properties *)

Import GoStrings Quoter Model Builder Facade SpecWords Samples.
Import Connect Cli Shapes MoreSamples.

(** ** Strings *)

Lemma string_append_cons (ch : ascii) (a b : string) :
  String ch a +:+ b = String ch (a +:+ b).
Proof. reflexivity. Qed.

Lemma string_append_nil_l (b : string) : EmptyString +:+ b = b.
Proof. reflexivity. Qed.

(** Unfolds the appends whose left operand starts with a known byte. *)
Ltac push_append :=
  repeat (rewrite string_append_cons || rewrite string_append_nil_l).

Lemma string_length_append (a b : string) :
  String.length (a +:+ b) = String.length a + String.length b.
Proof.
  induction a as [|ch a IH]; push_append; simpl; [reflexivity | now rewrite IH].
Qed.

Lemma string_append_nil_r (a : string) : a +:+ EmptyString = a.
Proof.
  induction a as [|ch a IH]; push_append; [reflexivity | now rewrite IH].
Qed.

Lemma string_append_assoc (a b c : string) :
  (a +:+ b) +:+ c = a +:+ (b +:+ c).
Proof.
  induction a as [|ch a IH]; push_append; [reflexivity | now rewrite IH].
Qed.

Lemma substring_whole (t : string) : substring 0 (String.length t) t = t.
Proof. induction t as [|ch t IH]; simpl; [reflexivity | now rewrite IH]. Qed.

Lemma substring_take_append (a b : string) :
  substring 0 (String.length a) (a +:+ b) = a.
Proof.
  induction a as [|ch a IH]; push_append; simpl.
  - now destruct b.
  - now rewrite IH.
Qed.

Lemma substring_drop_append (a b : string) :
  substring (String.length a) (String.length b) (a +:+ b) = b.
Proof.
  induction a as [|ch a IH]; push_append; simpl;
    [apply substring_whole | exact IH].
Qed.

Lemma HasSuffix_append (a b : string) : HasSuffix (a +:+ b) b = true.
Proof.
  unfold HasSuffix. rewrite string_length_append.
  replace (String.length a + String.length b - String.length b)
    with (String.length a) by lia.
  rewrite substring_drop_append, String.eqb_refl, andb_true_r.
  apply Nat.leb_le. lia.
Qed.

Lemma TrimSuffix_append (a b : string) : TrimSuffix (a +:+ b) b = a.
Proof.
  unfold TrimSuffix. rewrite HasSuffix_append, string_length_append.
  replace (String.length a + String.length b - String.length b)
    with (String.length a) by lia.
  apply substring_take_append.
Qed.

Lemma last_byte_append_byte (a : string) (ch : ascii) :
  last_byte (a +:+ str1 ch) = Some ch.
Proof.
  induction a as [|x a IH]; push_append; [reflexivity |].
  simpl. rewrite IH. destruct (a +:+ str1 ch) eqn:E; [|reflexivity].
  destruct a; discriminate E.
Qed.

Lemma HasPrefix_nil (t : string) : HasPrefix t EmptyString = true.
Proof. now destruct t. Qed.

Lemma HasPrefix_cons (ch a : ascii) (t p : string) :
  HasPrefix (String ch t) (String a p) = Ascii.eqb ch a && HasPrefix t p.
Proof.
  unfold HasPrefix. cbn [String.prefix].
  destruct (ascii_dec a ch) as [->|Hne].
  - now rewrite Ascii.eqb_refl.
  - destruct (Ascii.eqb ch a) eqn:E; [|reflexivity].
    apply Ascii.eqb_eq in E. congruence.
Qed.

Lemma HasPrefix_byte (ch a : ascii) (t : string) :
  HasPrefix (String ch t) (str1 a) = Ascii.eqb ch a.
Proof.
  unfold str1. now rewrite HasPrefix_cons, HasPrefix_nil, andb_true_r.
Qed.

Lemma str1_append (ch : ascii) (t : string) : str1 ch +:+ t = String ch t.
Proof. reflexivity. Qed.

(** The two equations of the scan of [strings.Replace]. *)
Lemma replace_from_look (old new : string) (ch : ascii) (rest : string) :
  replace_from old new 0 (String ch rest) =
  if HasPrefix (String ch rest) old
  then new +:+ replace_from old new (String.length old - 1) rest
  else String ch (replace_from old new 0 rest).
Proof. reflexivity. Qed.

Lemma replace_from_drop (old new : string) (k : nat) (ch : ascii) (rest : string) :
  replace_from old new (S k) (String ch rest) = replace_from old new k rest.
Proof. reflexivity. Qed.

(** Replacing a one-byte [old]: the scan looks at one byte at a time. *)
Lemma replace_byte_cons (old : ascii) (new : string) (ch : ascii) (rest : string) :
  replace_from (str1 old) new 0 (String ch rest) =
  if Ascii.eqb ch old
  then new +:+ replace_from (str1 old) new 0 rest
  else String ch (replace_from (str1 old) new 0 rest).
Proof.
  rewrite replace_from_look. unfold str1 at 1.
  now rewrite HasPrefix_cons, HasPrefix_nil, andb_true_r.
Qed.

(** Replacing a two-byte [old]. *)
Lemma replace_pair_cons (a b : ascii) (new : string) (ch : ascii) (rest : string) :
  replace_from (String a (str1 b)) new 0 (String ch rest) =
  if Ascii.eqb ch a && HasPrefix rest (str1 b)
  then new +:+ replace_from (String a (str1 b)) new 1 rest
  else String ch (replace_from (String a (str1 b)) new 0 rest).
Proof. rewrite replace_from_look. now rewrite HasPrefix_cons. Qed.

(** ** Quoting *)

Lemma BACKSLASH_is_not_DQUOTE : Ascii.eqb BACKSLASH DQUOTE = false.
Proof. reflexivity. Qed.

(** The two passes of [escapeString], one byte at a time. *)
Lemma double_backslashes_cons (ch : ascii) (x : string) :
  Replace (String ch x) (str1 BACKSLASH) BS2 =
  if Ascii.eqb ch BACKSLASH
  then String BACKSLASH (String BACKSLASH (Replace x (str1 BACKSLASH) BS2))
  else String ch (Replace x (str1 BACKSLASH) BS2).
Proof.
  change (Replace (String ch x) (str1 BACKSLASH) BS2)
    with (replace_from (str1 BACKSLASH) BS2 0 (String ch x)).
  change (Replace x (str1 BACKSLASH) BS2)
    with (replace_from (str1 BACKSLASH) BS2 0 x).
  rewrite replace_byte_cons. reflexivity.
Qed.

Lemma escape_quotes_cons (ch : ascii) (y : string) :
  Replace (String ch y) (str1 DQUOTE) BSQ =
  if Ascii.eqb ch DQUOTE
  then String BACKSLASH (String DQUOTE (Replace y (str1 DQUOTE) BSQ))
  else String ch (Replace y (str1 DQUOTE) BSQ).
Proof.
  change (Replace (String ch y) (str1 DQUOTE) BSQ)
    with (replace_from (str1 DQUOTE) BSQ 0 (String ch y)).
  change (Replace y (str1 DQUOTE) BSQ)
    with (replace_from (str1 DQUOTE) BSQ 0 y).
  rewrite replace_byte_cons. reflexivity.
Qed.

(** After the second pass no text starts with a bare double quote. *)
Lemma escaped_quotes_head (y : string) :
  HasPrefix (Replace y (str1 DQUOTE) BSQ) (str1 DQUOTE) = false.
Proof.
  destruct y as [|ch y]; [reflexivity |].
  rewrite escape_quotes_cons.
  destruct (Ascii.eqb ch DQUOTE) eqn:E; rewrite HasPrefix_byte.
  - apply BACKSLASH_is_not_DQUOTE.
  - exact E.
Qed.

(** Undoing the second pass: every backslash-quote is one that the pass put
    there. *)
Lemma unescape_quotes (y : string) :
  Replace (Replace y (str1 DQUOTE) BSQ) BSQ (str1 DQUOTE) = y.
Proof.
  change (replace_from BSQ (str1 DQUOTE) 0 (Replace y (str1 DQUOTE) BSQ) = y).
  induction y as [|ch y IH]; [reflexivity |].
  rewrite escape_quotes_cons.
  destruct (Ascii.eqb ch DQUOTE) eqn:E;
    rewrite (replace_pair_cons BACKSLASH DQUOTE).
  - apply Ascii.eqb_eq in E. subst ch.
    rewrite Ascii.eqb_refl.
    rewrite HasPrefix_byte, Ascii.eqb_refl.
    cbn [andb]. rewrite replace_from_drop, str1_append.
    f_equal. exact IH.
  - rewrite escaped_quotes_head, andb_false_r.
    f_equal. exact IH.
Qed.

(** Undoing the first pass: backslashes come in the pairs the pass made. *)
Lemma halve_backslashes (x : string) :
  Replace (Replace x (str1 BACKSLASH) BS2) BS2 (str1 BACKSLASH) = x.
Proof.
  change (replace_from BS2 (str1 BACKSLASH) 0 (Replace x (str1 BACKSLASH) BS2) = x).
  induction x as [|ch x IH]; [reflexivity |].
  rewrite double_backslashes_cons.
  destruct (Ascii.eqb ch BACKSLASH) eqn:E;
    rewrite (replace_pair_cons BACKSLASH BACKSLASH).
  - apply Ascii.eqb_eq in E. subst ch.
    rewrite Ascii.eqb_refl.
    rewrite HasPrefix_byte, Ascii.eqb_refl.
    cbn [andb]. rewrite replace_from_drop, str1_append.
    f_equal. exact IH.
  - rewrite E. cbn [andb]. f_equal. exact IH.
Qed.

Lemma strip_outer_quotes_wrap (inner : string) :
  strip_outer_quotes (str1 DQUOTE +:+ inner +:+ str1 DQUOTE) = inner.
Proof.
  unfold str1 at 1. push_append. unfold strip_outer_quotes.
  rewrite Ascii.eqb_refl, HasSuffix_append. cbn [andb].
  apply TrimSuffix_append.
Qed.

(** Un-escaping what [escapeString] produced inside its quotes gives the
    text back, for every text. *)
Lemma unescape_wrap_escapeString (x : string) :
  unescape (str1 DQUOTE +:+ escapeString x +:+ str1 DQUOTE) = x.
Proof.
  unfold unescape. rewrite strip_outer_quotes_wrap.
  unfold escapeString. fold BS2 BSQ.
  rewrite unescape_quotes. apply halve_backslashes.
Qed.

(** A byte of a bare identifier is neither a backslash nor a double quote. *)
Lemma bare_next_plain (ch : ascii) :
  bare_next ch = true -> Ascii.eqb ch BACKSLASH = false /\ Ascii.eqb ch DQUOTE = false.
Proof.
  intros H. split.
  - destruct (Ascii.eqb ch BACKSLASH) eqn:E; [|reflexivity].
    apply Ascii.eqb_eq in E. subst ch. discriminate H.
  - destruct (Ascii.eqb ch DQUOTE) eqn:E; [|reflexivity].
    apply Ascii.eqb_eq in E. subst ch. discriminate H.
Qed.

Lemma all_bare_plain (x : string) :
  all_bytes bare_next x = true ->
  contains_byte BACKSLASH x = false /\ contains_byte DQUOTE x = false.
Proof.
  induction x as [|ch x IH]; simpl; [now split |].
  intros H. apply andb_true_iff in H as [Hch Hx].
  destruct (bare_next_plain ch Hch) as [-> ->].
  now apply IH.
Qed.

Lemma bare_first_next (ch : ascii) : bare_first ch = true -> bare_next ch = true.
Proof.
  unfold bare_first, bare_next.
  destruct (is_upper ch), (is_lower ch), (is_digit ch), (is_underscore ch);
    simpl; congruence.
Qed.

Lemma bare_identifier_plain (x : string) :
  isBareIdentifier x = true ->
  contains_byte BACKSLASH x = false /\ contains_byte DQUOTE x = false.
Proof.
  destruct x as [|ch x]; [discriminate |].
  unfold isBareIdentifier. intros H.
  apply andb_true_iff in H as [Hch Hx].
  apply (all_bare_plain (String ch x)). simpl.
  now rewrite (bare_first_next ch Hch), Hx.
Qed.

(** A text with a backslash or a double quote in it is wrapped in quotes. *)
Lemma Quote_wraps (x : string) :
  contains_byte BACKSLASH x || contains_byte DQUOTE x = true ->
  Quote x = str1 DQUOTE +:+ escapeString x +:+ str1 DQUOTE.
Proof.
  intros H. unfold Quote.
  destruct x as [|ch x]; [discriminate H |].
  replace (String.eqb (String ch x) EmptyString) with false by reflexivity.
  destruct (isBareIdentifier (String ch x)) eqn:B; [|reflexivity].
  destruct (bare_identifier_plain _ B) as [H1 H2].
  rewrite H1, H2 in H. discriminate H.
Qed.

(** C7. Quoting loses no information: for every text [x] that contains a
    backslash or a double quote, un-escaping [Quote x] as the specification
    describes (strip the outer quotes, turn backslash-quote into a quote,
    then a doubled backslash into a backslash) gives [x] back. *)
Theorem Quote_unescape_roundtrip (x : string) :
  contains_byte BACKSLASH x || contains_byte DQUOTE x = true ->
  unescape (Quote x) = x.
Proof.
  intros H. rewrite (Quote_wraps x H). apply unescape_wrap_escapeString.
Qed.

Lemma Quote_unescape_roundtrip_witness :
  let x := String "a" (String BACKSLASH (String DQUOTE (String BACKSLASH "b"))) in
  contains_byte BACKSLASH x || contains_byte DQUOTE x = true /\
  unescape (Quote x) = x.
Proof.
  intros x. split; [reflexivity |].
  apply (Quote_unescape_roundtrip x). reflexivity.
Defined.

(** ** Data sources *)

Lemma nonempty_true (x : string) : x <> EmptyString -> nonempty x = true.
Proof. destruct x; [congruence | reflexivity]. Qed.

(** The three shapes [DataSource.String] produces when the measurement is
    present, whatever the quoter does to the identifiers. *)
Lemma DataSource_String_measurement_only (m : string) :
  m <> EmptyString ->
  DataSource_String {| Measurement := m; Database := EmptyString;
                       RetentionPolicy := EmptyString |}
  = QuoteIdentifier m.
Proof.
  intros Hm. unfold DataSource_String. cbn [Database RetentionPolicy Measurement].
  now rewrite (nonempty_true m Hm).
Qed.

Lemma DataSource_String_database_measurement (db m : string) :
  db <> EmptyString -> m <> EmptyString ->
  DataSource_String {| Measurement := m; Database := db;
                       RetentionPolicy := EmptyString |}
  = QuoteIdentifier db +:+ "." +:+ EmptyString +:+ "." +:+ QuoteIdentifier m.
Proof.
  intros Hdb Hm. unfold DataSource_String.
  cbn [Database RetentionPolicy Measurement].
  now rewrite (nonempty_true db Hdb), (nonempty_true m Hm).
Qed.

Lemma DataSource_String_fully_qualified (db rp m : string) :
  db <> EmptyString -> rp <> EmptyString -> m <> EmptyString ->
  DataSource_String {| Measurement := m; Database := db;
                       RetentionPolicy := rp |}
  = QuoteIdentifier db +:+ "." +:+ QuoteIdentifier rp +:+ "." +:+ QuoteIdentifier m.
Proof.
  intros Hdb Hrp Hm. unfold DataSource_String.
  cbn [Database RetentionPolicy Measurement].
  now rewrite (nonempty_true db Hdb), (nonempty_true rp Hrp),
              (nonempty_true m Hm).
Qed.

(** C2, as stated, fails: with the database absent and the retention policy
    present nothing stands in for the database. *)
Lemma DataSource_absent_database_counterexample :
  DataSource_String {| Measurement := "measurement"; Database := EmptyString;
                       RetentionPolicy := "retention_policy" |}
  <> placeholder_text.
Proof. vm_compute. discriminate. Qed.

(** C2, amended. A data source whose database is absent and whose retention
    policy is present renders without any placeholder: the quoted retention
    policy, then, if the measurement is present, a dot and the quoted
    measurement. *)
Theorem DataSource_absent_database (rp m : string) :
  rp <> EmptyString ->
  DataSource_String {| Measurement := m; Database := EmptyString;
                       RetentionPolicy := rp |}
  = if nonempty m
    then QuoteIdentifier rp +:+ "." +:+ QuoteIdentifier m
    else QuoteIdentifier rp.
Proof.
  intros Hrp. unfold DataSource_String.
  cbn [Database RetentionPolicy Measurement].
  rewrite (nonempty_true rp Hrp).
  now destruct (nonempty m).
Qed.

Lemma DataSource_absent_database_witness :
  DataSource_String {| Measurement := "measurement"; Database := EmptyString;
                       RetentionPolicy := "retention_policy" |}
  = "retention_policy.measurement".
Proof.
  rewrite (DataSource_absent_database "retention_policy" "measurement");
    [reflexivity | discriminate].
Defined.

(** C3, as stated, fails on its first text: between a database and a
    measurement the absent retention policy keeps its (empty) segment, so
    there are two dots.  Neither reading of the stated text is produced:
    not the quoter's output for db and m around one dot, not the same with
    literal double quotes. *)
Lemma DataSource_rendering_counterexample :
  let f := {| Measurement := "m"; Database := "db";
              RetentionPolicy := EmptyString |} in
  DataSource_String f <> Quote "db" +:+ "." +:+ Quote "m" /\
  DataSource_String f <>
    String DQUOTE ("db" +:+ String DQUOTE ("." +:+ String DQUOTE ("m" +:+ str1 DQUOTE))).
Proof. split; vm_compute; discriminate. Qed.

(** C3, amended. A database and a measurement render with the empty
    retention-policy segment between them, [db..m]; a measurement alone
    renders as [m]; database, retention policy and measurement render as
    [db.rp.m].  The identifiers go through the quoter, which leaves these
    bare names as they are. *)
Theorem DataSource_rendering :
  DataSource_String {| Measurement := "m"; Database := "db";
                       RetentionPolicy := EmptyString |} = "db..m" /\
  DataSource_String {| Measurement := "m"; Database := EmptyString;
                       RetentionPolicy := EmptyString |} = "m" /\
  DataSource_String {| Measurement := "m"; Database := "db";
                       RetentionPolicy := "rp" |} = "db.rp.m".
Proof.
  split; [|split].
  - now rewrite DataSource_String_database_measurement.
  - now rewrite DataSource_String_measurement_only.
  - now rewrite DataSource_String_fully_qualified.
Qed.

(** ** Limit and offset *)

Lemma uint_digits (u : Decimal.uint) :
  all_bytes is_digit (NilEmpty.string_of_uint u) = true.
Proof. induction u; cbn [NilEmpty.string_of_uint all_bytes]; auto. Qed.

Lemma Sprint_uint_digits (n : N) : all_bytes is_digit (Sprint_uint n) = true.
Proof. apply uint_digits. Qed.

Lemma Sprint_uint_nonempty (n : N) : Sprint_uint n <> EmptyString.
Proof.
  unfold Sprint_uint. destruct n as [|p]; [discriminate |].
  cbn [N.to_uint]. pose proof (Unsigned.to_uint_nonnil p) as Hp.
  destruct (Pos.to_uint p); [congruence | discriminate ..].
Qed.

Lemma digit_is_not_space (ch : ascii) : is_digit ch = true -> isSpace ch = false.
Proof.
  unfold is_digit, isSpace. intros H.
  apply andb_true_iff in H as [H1 H2].
  apply Nat.leb_le in H1. apply Nat.leb_le in H2.
  destruct (Nat.leb_spec (nat_of_ascii ch) 13); [lia |].
  rewrite andb_false_r. cbn [orb]. apply Nat.eqb_neq. lia.
Qed.

Lemma last_byte_all (p : ascii -> bool) (t : string) (ch : ascii) :
  all_bytes p t = true -> last_byte t = Some ch -> p ch = true.
Proof.
  induction t as [|x t IH]; [discriminate |].
  cbn [all_bytes last_byte]. intros H. apply andb_true_iff in H as [Hx Ht].
  destruct t; [intros [= <-]; exact Hx | now apply IH].
Qed.

Lemma last_byte_append (a b : string) :
  b <> EmptyString -> last_byte (a +:+ b) = last_byte b.
Proof.
  intros Hb. induction a as [|x a IH]; push_append; [reflexivity |].
  cbn [last_byte]. rewrite IH.
  destruct (a +:+ b) eqn:E; [|reflexivity].
  destruct a; [now rewrite string_append_nil_l in E | discriminate E].
Qed.

Lemma TrimRight_kept (t : string) :
  ends_with_space t = false -> TrimRight t = t.
Proof.
  unfold ends_with_space. induction t as [|x t IH]; [reflexivity |].
  cbn [last_byte TrimRight]. destruct t as [|y t].
  - cbn [TrimRight]. now intros ->.
  - intros H. now rewrite (IH H).
Qed.

Lemma digits_end_without_space (a : string) (n : N) :
  ends_with_space (a +:+ Sprint_uint n) = false.
Proof.
  unfold ends_with_space.
  rewrite (last_byte_append a _ (Sprint_uint_nonempty n)).
  destruct (last_byte (Sprint_uint n)) as [ch|] eqn:E; [|reflexivity].
  apply digit_is_not_space.
  exact (last_byte_all is_digit _ ch (Sprint_uint_digits n) E).
Qed.

Lemma TrimSpace_clause (first : ascii) (rest : string) (n : N) :
  isSpace first = false ->
  TrimSpace (String SPACE (String first rest) +:+ Sprint_uint n)
  = String first rest +:+ Sprint_uint n.
Proof.
  intros Hfirst. unfold TrimSpace. rewrite !string_append_cons.
  cbn [TrimLeft]. change (isSpace SPACE) with true. cbn iota.
  rewrite Hfirst, <- string_append_cons.
  apply TrimRight_kept, digits_end_without_space.
Qed.

(** What [offsetlimit.String] renders: nothing for a zero field, the clause
    with the decimal digits for a non-zero one, one space between the two
    clauses and none around them. *)
Lemma offsetlimit_String_cases (ol : offsetlimit) :
  offsetlimit_String ol =
    match Limit ol, Offset ol with
    | 0%N, 0%N => EmptyString
    | N.pos _, 0%N => "LIMIT " +:+ Sprint_uint (Limit ol)
    | 0%N, N.pos _ => "OFFSET " +:+ Sprint_uint (Offset ol)
    | N.pos _, N.pos _ =>
        ("LIMIT " +:+ Sprint_uint (Limit ol)) +:+ (" OFFSET " +:+ Sprint_uint (Offset ol))
    end.
Proof.
  destruct ol as [[|l] [|f]]; unfold offsetlimit_String;
    cbn [Limit Offset N.eqb N.ltb N.compare andb]; try reflexivity.
  - rewrite string_append_nil_l.
    now apply (TrimSpace_clause "O" "FFSET ").
  - rewrite string_append_nil_l.
    now apply (TrimSpace_clause "L" "IMIT ").
  - rewrite string_append_nil_l.
    replace ((" LIMIT " +:+ Sprint_uint (N.pos l)) +:+ (" OFFSET " +:+ Sprint_uint (N.pos f)))
      with (String SPACE
              (String "L" (("IMIT " +:+ Sprint_uint (N.pos l)) +:+ " OFFSET "))
              +:+ Sprint_uint (N.pos f)).
    + rewrite (TrimSpace_clause "L" _ (N.pos f)) by reflexivity.
      push_append. now rewrite !string_append_assoc.
    + push_append. now rewrite !string_append_assoc.
Qed.

(** With a non-zero limit or offset the statement ends with a digit. *)
Lemma Statement_nonzero_offsetlimit (st : s) (ol : offsetlimit) :
  o st = Some ol -> (Limit ol <> 0%N \/ Offset ol <> 0%N) ->
  ends_with_space (s_Statement st) = false.
Proof.
  intros Ho Hnz. unfold s_Statement. rewrite Ho.
  rewrite offsetlimit_String_cases.
  destruct (Limit ol) as [|l] eqn:Hl, (Offset ol) as [|f] eqn:Hf.
  - destruct Hnz; congruence.
  - rewrite <- string_append_assoc. apply digits_end_without_space.
  - rewrite <- string_append_assoc. apply digits_end_without_space.
  - rewrite <- !string_append_assoc. apply digits_end_without_space.
Qed.

(** ** Statements *)

Lemma Select_cons (this : Client) (f : DataSource) (fs : list DataSource) :
  Select this (f :: fs) = (this, Some {| d := f :: fs; c := None; o := None |}).
Proof. reflexivity. Qed.

Lemma Select_nil (this : Client) :
  Select this [] =
  (logged LevelError "Call to Select requires at least one data source" this,
   None).
Proof. reflexivity. Qed.

(** C4, as stated, fails: the measurement [cpu] is a bare identifier and is
    rendered without double quotes. *)
Lemma Statement_literal_counterexample :
  s_Statement (s_Offset 5 (s_Limit 10 select_cpu)) <> literal_text.
Proof. vm_compute. discriminate. Qed.

(** C4, amended. The statement built over the single data source with
    measurement [cpu], no column spec, limit 10 and offset 5 (set in either
    order) renders to exactly [SELECT * FROM cpu LIMIT 10 OFFSET 5]. *)
Theorem Statement_literal (this : Client) :
  snd (Select this [cpu]) = Some select_cpu /\
  s_Statement (s_Offset 5 (s_Limit 10 select_cpu))
    = "SELECT * FROM cpu LIMIT 10 OFFSET 5" /\
  s_Statement (s_Limit 10 (s_Offset 5 select_cpu))
    = "SELECT * FROM cpu LIMIT 10 OFFSET 5".
Proof.
  split; [now rewrite Select_cons | split; reflexivity].
Qed.

(** C5, as stated, fails: without data sources [Select] hands back a nil
    statement, which is not the error value the specification names. *)
Lemma Select_no_sources_counterexample :
  returned (snd (Select closed_client [])) <> Select_spec [].
Proof. vm_compute. discriminate. Qed.

(** C5, amended. Without data sources [Select] fails when it is called: it
    tells the logger and returns a nil statement, no error value.  With at
    least one data source it returns the statement over them, columns and
    limits unset, as the specification's constructor does. *)
Theorem Select_no_sources (this : Client) :
  Select this [] =
    (logged LevelError "Call to Select requires at least one data source" this,
     None) /\
  returned (snd (Select this [])) = NilStatement /\
  (forall f fs,
     Select this (f :: fs) =
       (this, Some {| d := f :: fs; c := None; o := None |}) /\
     returned (snd (Select this (f :: fs))) = Select_spec (f :: fs)).
Proof.
  split; [apply Select_nil | split; [reflexivity |]].
  intros f fs. split; [apply Select_cons | reflexivity].
Qed.

(** A statement whose limit and offset are both set, and both zero, renders
    with a space after its last clause. *)
Lemma Statement_zero_offsetlimit (st : s) (ol : offsetlimit) :
  o st = Some ol -> Limit ol = 0%N -> Offset ol = 0%N ->
  ends_with_space (s_Statement st) = true.
Proof.
  intros Ho Hl Hf. unfold s_Statement. rewrite Ho.
  unfold offsetlimit_String. rewrite Hl, Hf. cbn [N.eqb andb].
  rewrite string_append_nil_r.
  change " " with (str1 SPACE).
  unfold ends_with_space. now rewrite last_byte_append_byte.
Qed.

(** C6, the failing case. After [Limit(0)] or [Offset(0)] on a statement
    that has no limit or offset yet, the rendered text ends with a space. *)
Theorem Statement_explicit_zero_trailing_space (st : s) :
  o st = None ->
  ends_with_space (s_Statement (s_Limit 0 st)) = true /\
  ends_with_space (s_Statement (s_Offset 0 st)) = true.
Proof.
  intros Ho. split.
  - apply (Statement_zero_offsetlimit _ {| Limit := 0; Offset := 0 |});
      [unfold s_Limit; now rewrite Ho | reflexivity | reflexivity].
  - apply (Statement_zero_offsetlimit _ {| Limit := 0; Offset := 0 |});
      [unfold s_Offset; now rewrite Ho | reflexivity | reflexivity].
Qed.

Lemma Statement_explicit_zero_trailing_space_witness :
  o select_cpu = None /\
  s_Statement (s_Limit 0 select_cpu) = "SELECT * FROM cpu " /\
  ends_with_space (s_Statement (s_Limit 0 select_cpu)) = true /\
  ends_with_space (s_Statement (s_Offset 0 select_cpu)) = true.
Proof.
  split; [reflexivity | split; [reflexivity |]].
  apply (Statement_explicit_zero_trailing_space select_cpu). reflexivity.
Defined.

(** ** Mapping a response to a table *)

Lemma Query_of_response (this : Client) (q : string) (response : Response) :
  query this q = Return response ->
  Query this q =
    match Results response with
    | [result0] =>
        match Series result0 with
        | [] => Fail ErrEmptyResponse
        | series :: _ => Return (table_of series)
        end
    | _ => Fail ErrEmptyResponse
    end.
Proof.
  intros H. unfold Query. rewrite H. cbn [bind].
  destruct (Results response) as [|result0 [|result1 more]]; try reflexivity.
  cbn. destruct (Series result0) as [|series rest]; reflexivity.
Qed.

Lemma query_never_panics (this : Client) (q : string) : query this q <> Panic.
Proof.
  unfold query. destruct (client this) as [h|]; [|discriminate].
  destruct (Transport_Query h q (database this)) as [err|response];
    [discriminate |].
  destruct (Response_Error response); discriminate.
Qed.

Lemma Query_never_panics (this : Client) (q : string) : Query this q <> Panic.
Proof.
  destruct (query this q) as [response|err|] eqn:H.
  - rewrite (Query_of_response this q response H).
    destruct (Results response) as [|result0 [|result1 more]]; try discriminate.
    destruct (Series result0); discriminate.
  - unfold Query. rewrite H. discriminate.
  - now apply query_never_panics in H.
Qed.

(** C8. Once the transport has handed over a decoded response, [Query]
    fails with [ErrEmptyResponse] exactly when the response does not hold
    exactly one result or that result holds no series; otherwise it returns
    the table whose name, tags, columns, values and partial flag are those of
    the first series of the first result, unchanged. *)
Theorem Query_maps_first_series (this : Client) (q : string) (response : Response) :
  query this q = Return response ->
  (Query this q = Fail ErrEmptyResponse <->
     (length (Results response) <> 1
      \/ exists result0, Results response = [result0] /\ Series result0 = []))
  /\
  (forall result0 series rest,
     Results response = [result0] -> Series result0 = series :: rest ->
     exists table,
       Query this q = Return table /\
       Name table = Row_Name series /\ Tags table = Row_Tags series /\
       Columns table = Row_Columns series /\ Values table = Row_Values series /\
       Partial table = Row_Partial series).
Proof.
  intros H. rewrite (Query_of_response this q response H). split.
  - destruct (Results response) as [|result0 [|result1 more]].
    + split; [intros _; left; cbn; lia | reflexivity].
    + destruct (Series result0) as [|series rest] eqn:S0.
      * split; [intros _; right; now exists result0 | reflexivity].
      * split; [discriminate |].
        intros [Hlen | (r & Hr & Hs)]; [now cbn in Hlen |].
        injection Hr as <-. congruence.
    + split; [intros _; left; cbn; lia | reflexivity].
  - intros result0 series rest -> ->.
    exists (table_of series). repeat split.
Qed.

Lemma Query_maps_first_series_witness :
  query (client_answering databases_response) "SHOW DATABASES"
    = Return databases_response /\
  exists table,
    Query (client_answering databases_response) "SHOW DATABASES" = Return table /\
    Name table = "databases" /\ Tags table = ∅ /\ Columns table = ["name"] /\
    Values table = [[VString "db1"]; [VString "db2"]] /\ Partial table = false.
Proof.
  split; [reflexivity |].
  destruct (Query_maps_first_series
              (client_answering databases_response) "SHOW DATABASES"
              databases_response eq_refl) as [_ Hcopy].
  exact (Hcopy _ _ _ eq_refl eq_refl).
Defined.

(** ** Scalar queries *)

Lemma scalar_rows_never_panics (rows : list (list value)) (values : list string) :
  scalar_rows rows values <> Panic.
Proof.
  revert values. induction rows as [|column rest IH]; intros values; cbn.
  - discriminate.
  - destruct column as [|cell [|cell' more]]; cbn; try discriminate.
    destruct cell; try discriminate. apply IH.
Qed.

(** What [queryScalar] does with a mapped table. *)
Lemma queryScalar_of_table (this : Client) (q dataset column : string)
    (table : Table) :
  Query this q = Return table ->
  queryScalar this q dataset column =
    if negb (String.eqb (Name table) dataset) then Fail ErrUnexpectedResponse
    else
      bind (columns_mismatch table column)
           (fun mismatch : bool =>
              if mismatch then Fail ErrUnexpectedResponse
              else scalar_rows (Values table) []).
Proof. intros H. unfold queryScalar. now rewrite H. Qed.

Lemma columns_mismatch_panics (table : Table) (column : string) :
  columns_mismatch table column = Panic <-> Columns table = [].
Proof.
  unfold columns_mismatch.
  destruct (Columns table) as [|first [|second more]]; cbn;
    split; congruence.
Qed.

(** C9. [queryScalar] panics exactly when the mapped table carries the
    expected name and an empty column list: the column check then indexes
    [Columns[0]] out of bounds.  A series with at least one column name never
    makes it panic. *)
Theorem queryScalar_panics_without_columns
    (this : Client) (q dataset column : string) :
  queryScalar this q dataset column = Panic <->
  exists table,
    Query this q = Return table /\ Name table = dataset /\ Columns table = [].
Proof.
  destruct (Query this q) as [table|err|] eqn:H.
  - rewrite (queryScalar_of_table this q dataset column table H).
    destruct (String.eqb (Name table) dataset) eqn:En; cbn [negb].
    + apply String.eqb_eq in En.
      destruct (columns_mismatch table column) as [mismatch|err|] eqn:Hm;
        cbn [bind].
      * split.
        -- intros Hp. destruct mismatch; [discriminate |].
           now apply scalar_rows_never_panics in Hp.
        -- intros (t & Ht & _ & Hc). injection Ht as <-.
           apply (columns_mismatch_panics table column) in Hc. congruence.
      * unfold columns_mismatch in Hm.
        destruct (negb _); [destruct (_ !! _) |]; discriminate.
      * split; [|reflexivity]. intros _. exists table.
        repeat split; [exact En |].
        now apply (columns_mismatch_panics table column).
    + split; [discriminate |].
      intros (t & Ht & Hn & _). injection Ht as <-.
      apply String.eqb_eq in Hn. congruence.
  - unfold queryScalar. rewrite H. cbn [bind].
    split; [discriminate | intros (t & Ht & _); discriminate].
  - now apply Query_never_panics in H.
Qed.

(** The panic of C9 on a concrete response: the series named [databases]
    comes without column names. *)
Lemma queryScalar_panics_without_columns_witness :
  queryScalar
    (client_answering (response_of [series_of "databases" [] [[VString "db1"]]]))
    "SHOW DATABASES" "databases" "name" = Panic.
Proof.
  apply queryScalar_panics_without_columns.
  exists (table_of (series_of "databases" [] [[VString "db1"]])).
  repeat split.
Defined.

(** With two or more columns the check passes as soon as the first column
    has the expected name: the rows alone decide the result. *)
Lemma queryScalar_extra_columns (this : Client) (q dataset column : string)
    (table : Table) (second : string) (more : list string) :
  Query this q = Return table ->
  Name table = dataset ->
  Columns table = column :: second :: more ->
  queryScalar this q dataset column = scalar_rows (Values table) [].
Proof.
  intros H Hn Hc. rewrite (queryScalar_of_table this q dataset column table H).
  rewrite Hn, String.eqb_refl. cbn [negb].
  unfold columns_mismatch. rewrite Hc. cbn.
  now rewrite String.eqb_refl.
Qed.

(** C1, the failing input. The mapped table has two columns, the first of
    them named as expected: [queryScalar] returns the values of the rows
    (none, or one per row) instead of failing with [ErrUnexpectedResponse]. *)
Theorem queryScalar_two_columns_accepted :
  Columns (table_of (series_of "databases" ["name"; "extra"] [])) = ["name"; "extra"] /\
  queryScalar (client_answering (two_columns_response []))
              "SHOW DATABASES" "databases" "name" = Return [] /\
  queryScalar (client_answering (two_columns_response [[VString "db1"]]))
              "SHOW DATABASES" "databases" "name" = Return ["db1"].
Proof. split; [|split]; reflexivity. Qed.

(** A row that has a value for each of the two columns is refused by the
    check on the rows. *)
Example queryScalar_two_columns_full_row :
  queryScalar
    (client_answering (two_columns_response [[VString "db1"; VString "x"]]))
    "SHOW DATABASES" "databases" "name" = Fail ErrUnexpectedResponse.
Proof. reflexivity. Qed.

(** ** The getters *)

(** After [Close] the client has no handle, whatever the transport says. *)
Lemma Close_drops_handle (this : Client) :
  client (fst (Close this)) = None /\
  version (fst (Close this)) = version this /\
  database (fst (Close this)) = database this.
Proof.
  unfold Close, logged. cbn.
  destruct (client this) as [h|] eqn:Hc; cbn.
  - destruct (Transport_Close h); cbn; repeat split.
  - rewrite Hc. repeat split.
Qed.

(** C10. Without a transport handle [GetVersion] and [GetDatabase] return
    the empty string, whatever version and database the client has stored;
    that is the state [Close] leaves.  With a handle they return the stored
    version and database. *)
Theorem getters_need_a_handle (this : Client) :
  (client this = None ->
     GetVersion this = EmptyString /\ GetDatabase this = EmptyString) /\
  (forall h, client this = Some h ->
     GetVersion this = version this /\ GetDatabase this = database this) /\
  GetVersion (fst (Close this)) = EmptyString /\
  GetDatabase (fst (Close this)) = EmptyString.
Proof.
  unfold GetVersion, GetDatabase.
  destruct (Close_drops_handle this) as (-> & _ & _).
  split; [intros ->; now split |].
  split; [intros h ->; now split | now split].
Qed.

Lemma getters_need_a_handle_witness :
  let opened := client_answering databases_response in
  let closed := fst (Close opened) in
  (GetVersion opened = "1.8.10" /\ GetDatabase opened = "mydb") /\
  version closed = "1.8.10" /\ database closed = "mydb" /\
  GetVersion closed = EmptyString /\ GetDatabase closed = EmptyString.
Proof.
  intros opened closed.
  destruct (getters_need_a_handle opened) as (_ & Hlive & _).
  destruct (getters_need_a_handle closed) as (Hnone & _ & _).
  split; [exact (Hlive _ eq_refl) |].
  split; [reflexivity | split; [reflexivity | exact (Hnone eq_refl)]].
Defined.

(* ================================================================== *)
(** * Further properties of the code *)

(** ** The quoter *)

Lemma escapeString_cons (ch : ascii) (x : string) :
  escapeString (String ch x) = escaped_byte ch +:+ escapeString x.
Proof.
  unfold escapeString, escaped_byte.
  change (String BACKSLASH (str1 BACKSLASH)) with BS2.
  change (String BACKSLASH (str1 DQUOTE)) with BSQ.
  rewrite double_backslashes_cons.
  destruct (Ascii.eqb ch BACKSLASH) eqn:Eb.
  - rewrite !escape_quotes_cons, BACKSLASH_is_not_DQUOTE. reflexivity.
  - rewrite escape_quotes_cons.
    destruct (Ascii.eqb ch DQUOTE); reflexivity.
Qed.

Lemma escaped_byte_length (ch : ascii) :
  String.length (escaped_byte ch)
  = 1 + (if Ascii.eqb ch BACKSLASH then 1 else 0)
      + (if Ascii.eqb ch DQUOTE then 1 else 0).
Proof.
  unfold escaped_byte.
  destruct (Ascii.eqb ch BACKSLASH) eqn:Eb.
  - apply Ascii.eqb_eq in Eb. subst ch. reflexivity.
  - destruct (Ascii.eqb ch DQUOTE); reflexivity.
Qed.

(** X1. [escapeString] works byte by byte: the escaped form of a
    concatenation is the concatenation of the escaped forms. *)
Theorem escapeString_append (a b : string) :
  escapeString (a +:+ b) = escapeString a +:+ escapeString b.
Proof.
  induction a as [|ch a IH]; [reflexivity |].
  rewrite string_append_cons, !escapeString_cons, IH.
  now rewrite string_append_assoc.
Qed.

Lemma escapeString_adds (x : string) :
  String.length (escapeString x)
  = String.length x + count_byte BACKSLASH x + count_byte DQUOTE x.
Proof.
  induction x as [|ch x IH]; [reflexivity |].
  rewrite escapeString_cons, string_length_append, escaped_byte_length, IH.
  cbn [String.length count_byte]. lia.
Qed.

(** X2. [escapeString] adds exactly one byte for every backslash and every
    double quote of its argument, and nothing else. *)
Theorem escapeString_length (x : string) :
  String.length (escapeString x)
  = String.length x + count_byte BACKSLASH x + count_byte DQUOTE x.
Proof. exact (escapeString_adds x). Qed.

(** X3. In the text [escapeString] returns no double quote stands without
    its backslash and no backslash stands alone, whatever the argument: the
    closing quote [Quote] adds is the first unescaped one. *)
Theorem escapeString_well_escaped (x : string) :
  well_escaped (escapeString x) = true.
Proof.
  induction x as [|ch x IH]; [reflexivity |].
  rewrite escapeString_cons. unfold escaped_byte.
  destruct (Ascii.eqb ch BACKSLASH) eqn:Eb.
  - exact IH.
  - destruct (Ascii.eqb ch DQUOTE) eqn:Eq.
    + exact IH.
    + unfold str1. rewrite string_append_cons, string_append_nil_l.
      cbn [well_escaped]. now rewrite Eb, Eq.
Qed.

(** The three ways of [Quote]. *)
Lemma Quote_unchanged (x : string) :
  x = EmptyString \/ isBareIdentifier x = true -> Quote x = x.
Proof.
  unfold Quote. intros [-> | H]; [reflexivity |].
  rewrite H. now destruct (String.eqb x EmptyString).
Qed.

Lemma Quote_wrapped (x : string) :
  x <> EmptyString -> isBareIdentifier x = false ->
  Quote x = str1 DQUOTE +:+ escapeString x +:+ str1 DQUOTE.
Proof.
  intros Hx Hb. unfold Quote. rewrite Hb.
  destruct (String.eqb x EmptyString) eqn:E; [|reflexivity].
  now apply String.eqb_eq in E.
Qed.

Lemma Quote_cases (x : string) :
  (x = EmptyString \/ isBareIdentifier x = true) \/
  (x <> EmptyString /\ isBareIdentifier x = false).
Proof.
  destruct x as [|ch x]; [now left; left |].
  destruct (isBareIdentifier (String ch x)); [now left; right | now right].
Qed.

(** A text that starts with a double quote is neither empty nor bare. *)
Lemma wrapped_is_not_plain (inner : string) :
  let t := str1 DQUOTE +:+ inner in
  t <> EmptyString /\ isBareIdentifier t = false.
Proof. split; [discriminate | reflexivity]. Qed.

(** X4. [Quote] leaves exactly the empty text and the bare identifiers as
    they are; every other text becomes longer by at least the two quotes. *)
Theorem Quote_fixed_points (x : string) :
  (Quote x = x <-> x = EmptyString \/ isBareIdentifier x = true) /\
  (Quote x <> x -> String.length x + 2 <= String.length (Quote x)).
Proof.
  destruct (Quote_cases x) as [Hplain | [Hx Hb]].
  - split; [split; [now intros _ | apply Quote_unchanged] |].
    intros H. now rewrite (Quote_unchanged x Hplain) in H.
  - assert (String.length x + 2 <= String.length (Quote x)) as Hlen.
    { rewrite (Quote_wrapped x Hx Hb), !string_length_append,
        escapeString_adds. cbn [String.length str1]. lia. }
    split; [split |]; [| intros [-> | H]; congruence | now intros _].
    intros H. rewrite H in Hlen. lia.
Qed.

Lemma Quote_fixed_points_witness :
  Quote "my db" <> "my db" /\
  String.length "my db" + 2 <= String.length (Quote "my db").
Proof.
  assert (Quote "my db" <> "my db") as H by (vm_compute; discriminate).
  split; [exact H |].
  exact (proj2 (Quote_fixed_points "my db") H).
Defined.

(** X5. Quoting twice is not quoting once: [Quote] is idempotent on the
    texts it leaves alone, and only on those. *)
Theorem Quote_twice (x : string) :
  Quote (Quote x) = Quote x <-> (x = EmptyString \/ isBareIdentifier x = true).
Proof.
  destruct (Quote_cases x) as [Hplain | [Hx Hb]].
  - rewrite (Quote_unchanged x Hplain). split; [now intros _ |].
    apply Quote_unchanged.
  - split; [| intros [-> | H]; congruence].
    rewrite (Quote_wrapped x Hx Hb). intros H. exfalso.
    destruct (wrapped_is_not_plain (escapeString x +:+ str1 DQUOTE)) as [Hne Hnb].
    apply (f_equal String.length) in H.
    rewrite (Quote_wrapped _ Hne Hnb), !string_length_append in H.
    rewrite escapeString_adds, !string_length_append in H.
    cbn [String.length str1] in H. lia.
Qed.

Lemma Quote_twice_witness : Quote (Quote "cpu") = Quote "cpu".
Proof. apply (proj2 (Quote_twice "cpu")). right. reflexivity. Defined.

(** X6. [Quote] is injective: two identifiers with the same quoted form are
    the same identifier. *)
Theorem Quote_injective (x y : string) : Quote x = Quote y -> x = y.
Proof.
  destruct (Quote_cases x) as [Hx | [Hx Hbx]],
           (Quote_cases y) as [Hy | [Hy Hby]].
  - now rewrite (Quote_unchanged x Hx), (Quote_unchanged y Hy).
  - rewrite (Quote_unchanged x Hx), (Quote_wrapped y Hy Hby). intros ->.
    destruct (wrapped_is_not_plain (escapeString y +:+ str1 DQUOTE)) as [Hne Hnb].
    destruct Hx as [Hx | Hx]; congruence.
  - rewrite (Quote_unchanged y Hy), (Quote_wrapped x Hx Hbx). intros <-.
    destruct (wrapped_is_not_plain (escapeString x +:+ str1 DQUOTE)) as [Hne Hnb].
    destruct Hy as [Hy | Hy]; congruence.
  - rewrite (Quote_wrapped x Hx Hbx), (Quote_wrapped y Hy Hby). intros H.
    apply (f_equal unescape) in H.
    now rewrite !unescape_wrap_escapeString in H.
Qed.

Lemma Quote_injective_witness :
  Quote "a b" = Quote "a b" /\ "a b" = "a b".
Proof. split; [reflexivity | exact (Quote_injective "a b" "a b" eq_refl)]. Defined.

(** ** The statement builder *)

(** X7. [Limit] and [Offset] each set their own field and keep the other:
    they commute, and of two calls of the same method the last one counts. *)
Theorem Limit_Offset_compose (st : s) (n m k : N) :
  s_Limit n (s_Offset m st) = s_Offset m (s_Limit n st) /\
  o (s_Limit n (s_Offset m st)) = Some {| Limit := n; Offset := m |} /\
  s_Limit n (s_Limit k st) = s_Limit n st /\
  s_Offset m (s_Offset k st) = s_Offset m st.
Proof.
  destruct st as [ds cs [[l f]|]]; repeat split.
Qed.

(** X8. [Columns] replaces the column spec, the empty text standing for all
    columns: the last call counts, the data sources, the limit and the
    offset are kept, and the statement renders the given text as it is, or
    the star. *)
Theorem Columns_compose (st : s) (v w : string) :
  s_Columns v (s_Columns w st) = s_Columns v st /\
  d (s_Columns v st) = d st /\ o (s_Columns v st) = o st /\
  columns_text (s_Columns v st) = (if String.eqb v EmptyString then "*" else v).
Proof.
  unfold s_Columns, columns_text, columns_String.
  destruct (String.eqb v EmptyString) eqn:Ev, (String.eqb w EmptyString);
    cbn; rewrite ?Ev; repeat split.
Qed.

(** The loop over the data sources appends every source with a comma. *)
Lemma sources_loop (f : DataSource) (ds : list DataSource) (q : string) :
  fold_left (fun q f => (q +:+ DataSource_String f) +:+ ",") (f :: ds) q
  = (q +:+ Join (map DataSource_String (f :: ds)) ",") +:+ ",".
Proof.
  revert f q. induction ds as [|g ds IH]; intros f q; [reflexivity |].
  change (fold_left (fun q f => (q +:+ DataSource_String f) +:+ ",")
                    (f :: g :: ds) q)
    with (fold_left (fun q f => (q +:+ DataSource_String f) +:+ ",")
                    (g :: ds) ((q +:+ DataSource_String f) +:+ ",")).
  rewrite IH.
  change (Join (map DataSource_String (f :: g :: ds)) ",")
    with (DataSource_String f +:+ "," +:+
          Join (map DataSource_String (g :: ds)) ",").
  now rewrite !string_append_assoc.
Qed.

(** X9. The text of a statement with at least one data source: SELECT, the
    column spec or the star, FROM, the data sources separated by commas with
    no comma after the last, and, when a limit or an offset has been set,
    a space and the limit and offset clauses. *)
Theorem Statement_rendering (st : s) :
  d st <> [] ->
  s_Statement st =
    ((("SELECT " +:+ columns_text st) +:+ " FROM ")
       +:+ Join (map DataSource_String (d st)) ",")
    +:+ clause_text st.
Proof.
  intros Hd. unfold s_Statement, columns_text, clause_text.
  destruct (d st) as [|f ds]; [congruence |].
  change (0 <? length (f :: ds))%nat with true. cbv iota.
  rewrite sources_loop, TrimSuffix_append.
  destruct (c st), (o st);
    now rewrite ?string_append_assoc, ?string_append_nil_r.
Qed.

Lemma Statement_rendering_witness :
  d (s_Limit 3 (s_Columns "value,time" select_two)) <> [] /\
  s_Statement (s_Limit 3 (s_Columns "value,time" select_two))
  = "SELECT value,time FROM cpu,db..mem LIMIT 3".
Proof.
  split; [discriminate |].
  rewrite Statement_rendering; [reflexivity | discriminate].
Defined.

(** X10. The rendering of a data source does not tell the positions apart:
    a database and a retention policy without measurement render as the
    same text as the same two names taken as retention policy and
    measurement without database. *)
Theorem DataSource_String_collision (x y : string) :
  x <> EmptyString -> y <> EmptyString ->
  DataSource_String {| Measurement := EmptyString; Database := x;
                       RetentionPolicy := y |}
  = DataSource_String {| Measurement := y; Database := EmptyString;
                         RetentionPolicy := x |}.
Proof.
  intros Hx Hy. unfold DataSource_String.
  cbn [Database RetentionPolicy Measurement].
  now rewrite (nonempty_true x Hx), (nonempty_true y Hy).
Qed.

Lemma DataSource_String_collision_witness :
  DataSource_String {| Measurement := EmptyString; Database := "db";
                       RetentionPolicy := "rp" |} = "db.rp" /\
  DataSource_String {| Measurement := "rp"; Database := EmptyString;
                       RetentionPolicy := "db" |} = "db.rp".
Proof.
  split; [|reflexivity].
  rewrite (DataSource_String_collision "db" "rp");
    [reflexivity | discriminate | discriminate].
Defined.

(** X11. A statement whose limit or offset has been set ends with a space
    exactly when both are zero. *)
Theorem Statement_trailing_space (st : s) (ol : offsetlimit) :
  o st = Some ol ->
  (ends_with_space (s_Statement st) = true <->
   Limit ol = 0%N /\ Offset ol = 0%N).
Proof.
  intros Ho. split.
  - intros H.
    destruct (N.eq_dec (Limit ol) 0%N) as [Hl|Hl],
             (N.eq_dec (Offset ol) 0%N) as [Hf|Hf];
      [now split | | |];
      rewrite (Statement_nonzero_offsetlimit st ol Ho) in H;
      solve [discriminate | auto].
  - intros [Hl Hf]. exact (Statement_zero_offsetlimit st ol Ho Hl Hf).
Qed.

Lemma Statement_trailing_space_witness :
  o (s_Offset 0 (s_Limit 0 select_two)) = Some {| Limit := 0; Offset := 0 |} /\
  ends_with_space (s_Statement (s_Offset 0 (s_Limit 0 select_two))) = true.
Proof.
  split; [reflexivity |].
  apply (Statement_trailing_space (s_Offset 0 (s_Limit 0 select_two))
           {| Limit := 0; Offset := 0 |}); [reflexivity | now split].
Defined.

(** ** The client *)

Lemma query_logged (lv : level) (text : string) (this : Client) (q : string) :
  query (logged lv text this) q = query this q.
Proof. reflexivity. Qed.

Lemma Query_logged (lv : level) (text : string) (this : Client) (q : string) :
  Query (logged lv text this) q = Query this q.
Proof. reflexivity. Qed.

(** X12. A client without handle refuses every operation with
    [ErrNotConnected] and is left as it was; that is the state after
    [Close]. *)
Theorem closed_client_refuses (this : Client) :
  client this = None ->
  forall (q dataset column name : string) (statement : option s),
    query this q = Fail ErrNotConnected /\
    Query this q = Fail ErrNotConnected /\
    queryScalar this q dataset column = Fail ErrNotConnected /\
    ShowDatabases this = Fail ErrNotConnected /\
    GetMeasurements this = Fail ErrNotConnected /\
    SetDatabase this name = (this, Fail ErrNotConnected) /\
    Do this statement = Fail ErrNotConnected.
Proof.
  intros Hc q dataset column name statement.
  unfold queryScalar, Query, ShowDatabases, GetMeasurements, SetDatabase, Do, query.
  rewrite Hc. repeat split.
Qed.

Lemma closed_client_refuses_witness :
  let closed := fst (Close (client_answering databases_response)) in
  client closed = None /\
  ShowDatabases closed = Fail ErrNotConnected /\
  SetDatabase closed "db1" = (closed, Fail ErrNotConnected) /\
  Do closed (Some select_cpu) = Fail ErrNotConnected.
Proof.
  intros closed.
  destruct (closed_client_refuses closed eq_refl "SHOW DATABASES"
              "databases" "name" "db1" (Some select_cpu))
    as (_ & _ & _ & Hs & _ & Hd & Hdo).
  repeat split; assumption.
Defined.

(** X13. [Close] keeps address, database and version, tells the logger
    once, and makes a second [Close] a success that changes nothing but the
    log, whatever the transport reported at the first. *)
Theorem Close_twice (this : Client) :
  let closed := fst (Close this) in
  addr closed = addr this /\ database closed = database this /\
  version closed = version this /\
  log closed = log this ++ [(LevelDebug2, "<influxdb.Client>Close")] /\
  Close closed = (logged LevelDebug2 "<influxdb.Client>Close" closed, None).
Proof.
  unfold Close, logged. cbn.
  destruct (client this) as [h|] eqn:Hc; cbn.
  - destruct (Transport_Close h); cbn; repeat split.
  - rewrite Hc. repeat split.
Qed.

Lemma filter_nil_all {A : Type} (p : A -> bool) (l : list A) :
  List.filter p l = [] -> Forall (fun x => p x = false) l.
Proof.
  induction l as [|x l IH]; cbn; [constructor |].
  destruct (p x) eqn:E; [discriminate |].
  intros H. constructor; [exact E | now apply IH].
Qed.

(** X14. A response that [query] returns is the transport's answer to the
    command on the current database, and carries no error text, neither its
    own nor in any of its results. *)
Theorem query_returns_clean_response
    (this : Client) (q : string) (response : Response) :
  query this q = Return response ->
  (exists h, client this = Some h /\
             Transport_Query h q (database this) = inr response) /\
  Response_Err response = EmptyString /\
  Forall (fun result => Result_Err result = EmptyString) (Results response).
Proof.
  unfold query. destruct (client this) as [h|]; [|discriminate].
  destruct (Transport_Query h q (database this)) as [err|r] eqn:Hq;
    [discriminate |].
  destruct (Response_Error r) as [err|] eqn:He; [discriminate |].
  intros [= <-]. split; [now exists h |].
  unfold Response_Error in He.
  destruct (String.eqb (Response_Err r) EmptyString) eqn:E1; cbn in He;
    [|discriminate].
  apply String.eqb_eq in E1. split; [exact E1 |].
  destruct (List.filter _ (Results r)) eqn:Ef; [|discriminate].
  apply filter_nil_all in Ef.
  eapply Forall_impl; [exact Ef |]. cbn. intros res Hres.
  apply negb_false_iff, String.eqb_eq in Hres. exact Hres.
Qed.

Lemma query_returns_clean_response_witness :
  query (client_answering databases_response) "SHOW DATABASES"
    = Return databases_response /\
  Response_Err databases_response = EmptyString /\
  Forall (fun result => Result_Err result = EmptyString)
         (Results databases_response).
Proof.
  split; [reflexivity |].
  exact (proj2 (query_returns_clean_response
                  (client_answering databases_response) "SHOW DATABASES"
                  databases_response eq_refl)).
Defined.

(** The loop over the rows: it returns exactly when every row is one
    string, and then the strings in the order of the rows, after those
    collected before; its only error is [ErrUnexpectedResponse]. *)
Lemma scalar_rows_returns (rows : list (list value)) (acc result : list string) :
  scalar_rows rows acc = Return result <->
  exists values, rows = single_strings values /\ result = acc ++ values.
Proof.
  revert acc. induction rows as [|column rest IH]; intros acc; cbn.
  - split.
    + intros [= <-]. exists []. now rewrite app_nil_r.
    + intros (values & Hr & ->). destruct values; [|discriminate].
      now rewrite app_nil_r.
  - destruct column as [|cell [|cell' more]]; cbn.
    + split; [discriminate | intros ([|v vs] & Hr & _); discriminate].
    + destruct cell as [text| | |];
        try (split; [discriminate | intros ([|v vs] & Hr & _); discriminate]).
      rewrite IH. split.
      * intros (values & -> & ->). exists (text :: values).
        now rewrite <- app_assoc.
      * intros ([|v vs] & Hr & ->); [discriminate |].
        injection Hr as -> ->. exists vs. now rewrite <- app_assoc.
    + split; [discriminate | intros ([|v vs] & Hr & _); discriminate].
Qed.

Lemma scalar_rows_fails (rows : list (list value)) (acc : list string) (e : error) :
  scalar_rows rows acc = Fail e -> e = ErrUnexpectedResponse.
Proof.
  revert acc. induction rows as [|column rest IH]; intros acc; cbn;
    [discriminate |].
  destruct column as [|cell [|cell' more]]; cbn; try (now intros [= <-]).
  destruct cell; try (now intros [= <-]). apply IH.
Qed.

Lemma columns_mismatch_passes (table : Table) (column : string) :
  columns_mismatch table column = Return false <->
  columns_accepted (Columns table) column.
Proof.
  unfold columns_mismatch, columns_accepted.
  destruct (Columns table) as [|first [|second more]]; cbn.
  - split; [discriminate | intros (f & m & H & _); discriminate].
  - split; [intros _; exists first, []; auto | reflexivity].
  - destruct (String.eqb first column) eqn:E; cbn.
    + apply String.eqb_eq in E. split; [|reflexivity].
      intros _. exists first, (second :: more). auto.
    + split; [discriminate |].
      intros (f & m & [= <- <-] & [H | H]); [discriminate |].
      subst. now rewrite String.eqb_refl in E.
Qed.

(** X15. On a mapped table [queryScalar] returns a list exactly when the
    table has the expected name, its columns pass the check (one column of
    any name, or several with the first named as expected) and every row is
    one string; the list holds these strings in the order of the rows. *)
Theorem queryScalar_returns
    (this : Client) (q dataset column : string) (table : Table)
    (values : list string) :
  Query this q = Return table ->
  (queryScalar this q dataset column = Return values <->
   Name table = dataset /\ columns_accepted (Columns table) column /\
   Values table = single_strings values).
Proof.
  intros H. rewrite (queryScalar_of_table this q dataset column table H).
  rewrite <- columns_mismatch_passes.
  destruct (String.eqb (Name table) dataset) eqn:En; cbn [negb].
  - apply String.eqb_eq in En.
    destruct (columns_mismatch table column) as [[|]|err|]; cbn [bind].
    + split; [discriminate | intros (_ & Hm & _); discriminate].
    + rewrite scalar_rows_returns. split.
      * intros (vs & Hv & ->). now repeat split.
      * intros (_ & _ & Hv). now exists values.
    + split; [discriminate | intros (_ & Hm & _); discriminate].
    + split; [discriminate | intros (_ & Hm & _); discriminate].
  - split; [discriminate |]. intros (Hn & _).
    apply String.eqb_eq in Hn. congruence.
Qed.

Lemma queryScalar_returns_witness :
  Query (client_answering databases_response) "SHOW DATABASES"
    = Return (table_of (series_of "databases" ["name"]
                          [[VString "db1"]; [VString "db2"]])) /\
  queryScalar (client_answering databases_response)
              "SHOW DATABASES" "databases" "name" = Return ["db1"; "db2"].
Proof.
  split; [reflexivity |].
  apply (queryScalar_returns (client_answering databases_response)
           "SHOW DATABASES" "databases" "name" _ ["db1"; "db2"] eq_refl).
  repeat split. exists "name", []. auto.
Defined.

(** X16. An error of [queryScalar] is the error of [Query] or
    [ErrUnexpectedResponse]: no other error is made up on the way. *)
Theorem queryScalar_errors
    (this : Client) (q dataset column : string) (e : error) :
  queryScalar this q dataset column = Fail e ->
  Query this q = Fail e \/ e = ErrUnexpectedResponse.
Proof.
  destruct (Query this q) as [table|err|] eqn:H.
  - rewrite (queryScalar_of_table this q dataset column table H).
    destruct (negb _); [intros [= <-]; now right |].
    unfold columns_mismatch.
    destruct (negb _); [destruct (_ !! _) as [first|] |]; cbn [bind];
      try discriminate.
    + destruct (negb _); [intros [= <-]; now right |].
      intros Hs. right. exact (scalar_rows_fails _ _ _ Hs).
    + intros Hs. right. exact (scalar_rows_fails _ _ _ Hs).
  - unfold queryScalar. rewrite H. cbn [bind]. intros [= <-]. now left.
  - now apply Query_never_panics in H.
Qed.

Lemma queryScalar_errors_witness :
  queryScalar
    (client_answering numeric_response)
    "SHOW DATABASES" "databases" "name" = Fail ErrUnexpectedResponse /\
  (Query (client_answering numeric_response) "SHOW DATABASES"
     = Fail ErrUnexpectedResponse
   \/ ErrUnexpectedResponse = ErrUnexpectedResponse).
Proof.
  split; [reflexivity |].
  apply (queryScalar_errors _ "SHOW DATABASES" "databases" "name"). reflexivity.
Defined.

(** ** Choosing the database *)

Lemma filter_head_name (name : string) (dbs : list string) :
  match List.filter (fun v => String.eqb v name) dbs with
  | v :: _ => v = name /\ In name dbs
  | [] => ~ In name dbs
  end.
Proof.
  induction dbs as [|x dbs IH]; cbn; [tauto |].
  destruct (String.eqb x name) eqn:E.
  - apply String.eqb_eq in E. auto.
  - apply String.eqb_neq in E.
    destruct (List.filter _ dbs); [|tauto].
    intros [H | H]; [congruence | contradiction].
Qed.

(** What [SetDatabase] does once the databases are listed. *)
Lemma SetDatabase_of_list (this : Client) (name : string) (dbs : list string) :
  ShowDatabases this = Return dbs ->
  SetDatabase this name =
    match List.filter (fun v => String.eqb v name) dbs with
    | v :: _ => (set_database this v, Return tt)
    | [] => (this, Fail ErrEmptyResponse)
    end.
Proof.
  intros H. unfold SetDatabase.
  destruct (client this) as [h|] eqn:Hc.
  - now rewrite H.
  - unfold ShowDatabases in H. now rewrite Hc in H.
Qed.

(** X17. Given the list [ShowDatabases] returns, [SetDatabase] succeeds
    exactly for a listed name, which [GetDatabase] then reports;
    for a name that is not listed it fails with [ErrEmptyResponse] and the
    client keeps its database. *)
Theorem SetDatabase_listed (this : Client) (name : string) (dbs : list string) :
  ShowDatabases this = Return dbs ->
  (In name dbs ->
     SetDatabase this name = (set_database this name, Return tt) /\
     GetDatabase (fst (SetDatabase this name)) = name) /\
  (~ In name dbs -> SetDatabase this name = (this, Fail ErrEmptyResponse)).
Proof.
  intros H. rewrite (SetDatabase_of_list this name dbs H).
  pose proof (filter_head_name name dbs) as Hf.
  assert (exists h, client this = Some h) as [h Hc].
  { unfold ShowDatabases in H. destruct (client this) as [h|]; [|discriminate].
    now exists h. }
  destruct (List.filter _ dbs) as [|v more].
  - split; [intros Hin; contradiction | reflexivity].
  - destruct Hf as [-> Hin]. split; [|intros Hn; contradiction].
    intros _. split; [reflexivity |].
    unfold GetDatabase. cbn. now rewrite Hc.
Qed.

Lemma SetDatabase_listed_witness :
  ShowDatabases (client_answering databases_response) = Return ["db1"; "db2"] /\
  GetDatabase (fst (SetDatabase (client_answering databases_response) "db2"))
    = "db2" /\
  SetDatabase (client_answering databases_response) "nope"
    = (client_answering databases_response, Fail ErrEmptyResponse).
Proof.
  split; [reflexivity |].
  destruct (SetDatabase_listed (client_answering databases_response) "db2"
              ["db1"; "db2"] eq_refl) as [Hin _].
  destruct (SetDatabase_listed (client_answering databases_response) "nope"
              ["db1"; "db2"] eq_refl) as [_ Hout].
  split.
  - apply Hin. cbn. auto.
  - apply Hout. cbn. intros [H | [H | []]]; discriminate.
Defined.

(** X18. Without a listing there is no change of database: when
    [ShowDatabases] fails, [SetDatabase] fails with the same error and the
    client is left as it was. *)
Theorem SetDatabase_listing_failed (this : Client) (name : string) (e : error) :
  ShowDatabases this = Fail e -> SetDatabase this name = (this, Fail e).
Proof.
  intros H. unfold SetDatabase.
  destruct (client this) as [h|] eqn:Hc.
  - now rewrite H.
  - unfold ShowDatabases in H. rewrite Hc in H. now injection H as <-.
Qed.

Lemma SetDatabase_listing_failed_witness :
  let this := client_answering (response_of []) in
  ShowDatabases this = Fail ErrEmptyResponse /\
  SetDatabase this "db1" = (this, Fail ErrEmptyResponse).
Proof.
  intros this. split; [reflexivity |].
  apply (SetDatabase_listing_failed this "db1"). reflexivity.
Defined.

(** ** Running a statement *)

(** X19. [Do] on what [Select] returned, for a client with a handle: the
    rendered statement goes to [Query] when data sources were given; the nil
    statement of an empty [Select] makes [Do] panic. *)
Theorem Do_of_Select (this : Client) (from : list DataSource) :
  client this <> None ->
  Do (fst (Select this from)) (snd (Select this from)) =
    match from with
    | [] => Panic
    | _ :: _ => Query this (s_Statement {| d := from; c := None; o := None |})
    end.
Proof.
  intros Hc. destruct from as [|f fs]; unfold Do; cbn.
  - destruct (client this); [reflexivity | congruence].
  - destruct (client this); [reflexivity | congruence].
Qed.

Lemma Do_of_Select_witness :
  let this := client_answering databases_response in
  client this <> None /\
  Do (fst (Select this [])) (snd (Select this [])) = Panic /\
  Do (fst (Select this [cpu])) (snd (Select this [cpu]))
    = Query this "SELECT * FROM cpu".
Proof.
  intros this.
  assert (client this <> None) as Hc by discriminate.
  split; [exact Hc |]. split.
  - exact (Do_of_Select this [] Hc).
  - exact (Do_of_Select this [cpu] Hc).
Defined.

(** ** Addresses and opening *)

(** X20. The address of a configuration: port 0 stands for the default
    port 8086, and the scheme is https exactly when SSL is set. *)
Theorem Config_addr_port_and_scheme (config : Config) :
  Config_addr (with_port config 0) = Config_addr (with_port config 8086) /\
  HasPrefix (Config_addr config) "https://" = SSL config /\
  HasPrefix (Config_addr config) "http://" = negb (SSL config) /\
  HasSuffix (Config_addr config) "/" = true.
Proof.
  split; [reflexivity |]. unfold Config_addr.
  split; [|split].
  - destruct (SSL config); rewrite !string_append_assoc;
      push_append; rewrite !HasPrefix_cons, ?HasPrefix_nil; reflexivity.
  - destruct (SSL config); rewrite !string_append_assoc;
      push_append; rewrite !HasPrefix_cons, ?HasPrefix_nil; reflexivity.
  - apply HasSuffix_append.
Qed.

Section OpeningFacts.

Variable NewHTTPClient : HTTPConfig -> string + Connection.
Variable Duration_String : Z -> string.

Let open := Open NewHTTPClient Duration_String.

Lemma SetDatabase_success (this this' : Client) (name : string) (u : unit) :
  SetDatabase this name = (this', Return u) -> this' = set_database this name.
Proof.
  unfold SetDatabase. destruct (client this); [|discriminate].
  destruct (ShowDatabases this) as [dbs|err|]; try discriminate.
  pose proof (filter_head_name name dbs) as Hf.
  destruct (List.filter _ dbs) as [|v more]; [discriminate |].
  destruct Hf as [-> _]. now intros [= <-].
Qed.

(** X21. A client that [Open] returns has a handle, the one the transport
    library made for the address and credentials of the configuration; its
    version is the one the ping reported, its database the configured one,
    and its logger holds what was written while opening. *)
Theorem Open_connected (config : Config) (log0 log1 : Logger) (this : Client) :
  open config log0 = (log1, Return this) ->
  exists conn t,
    NewHTTPClient (http_of config) = inr conn /\
    Connection_Ping conn (Timeout config) = inr (t, version this) /\
    client this = Some (Connection_handle conn) /\
    addr this = Config_addr config /\
    GetVersion this = version this /\
    GetDatabase this = Config_Database config /\
    log this = log1.
Proof.
  unfold open, Open. fold (http_of config).
  destruct (NewHTTPClient (http_of config)) as [err|conn] eqn:Hd;
    [discriminate |].
  cbn [HTTP_Timeout http_of].
  destruct (Connection_Ping conn (Timeout config)) as [err|[t v]] eqn:Hp;
    [discriminate |].
  destruct (nonempty (Config_Database config)) eqn:Hn.
  - destruct (SetDatabase _ (Config_Database config)) as [this' [u|err|]] eqn:Hs;
      try discriminate.
    intros [= <- <-]. apply SetDatabase_success in Hs. subst this'.
    exists conn, t. repeat split; assumption.
  - intros [= <- <-]. exists conn, t. repeat split; try assumption.
    unfold GetDatabase. cbn.
    destruct (Config_Database config); [reflexivity | discriminate].
Qed.


End OpeningFacts.

Lemma Open_connected_witness :
  exists log1 this,
    Open dial_ok print_ns (config_for "db2") [] = (log1, Return this) /\
    client this = Some listing_handle /\
    addr this = "http://localhost:8086/" /\
    GetVersion this = "1.8.10" /\ GetDatabase this = "db2".
Proof.
  eexists. eexists. split; [reflexivity |].
  destruct (Open_connected dial_ok print_ns (config_for "db2") [] _ _ eq_refl)
    as (conn & t & Hd & Hp & Hc & Ha & Hv & Hdb & _).
  injection Hd as <-. repeat split; assumption.
Defined.


(** ** The command line *)

(** X23. [GetOneArg] returns an argument exactly when the command is
    followed by one argument, and then that argument; with fewer or more
    it returns an error and never indexes out of range. *)
Theorem GetOneArg_one_argument (args : list string) (param1 : string) :
  (forall arg, GetOneArg args param1 = Return arg <->
               exists command, args = [command; arg]) /\
  GetOneArg args param1 <> Panic.
Proof.
  unfold GetOneArg.
  destruct args as [|a0 [|a1 [|a2 more]]]; cbn; split; try discriminate.
  - intros arg. split; [discriminate | intros (cmd & H); discriminate].
  - intros arg. split; [discriminate | intros (cmd & H); discriminate].
  - intros arg. split.
    + intros [= <-]. now exists a0.
    + intros (cmd & [= <- <-]). reflexivity.
  - intros arg. split; [discriminate | intros (cmd & H); discriminate].
Qed.
